(** * QPAnalyze: the question pipeline of [app.py]

    A shallow embedding of the text-processing core of the Flask
    application: the candidate scanner ([extract_question_candidates]),
    the question refiner ([ai_clean_questions]), the template fallback
    ([force_questions]), the keyword summarizer ([extract_keywords]) and
    the [analyze] route that chains them.

    Python strings are sequences of code points; they are modelled as
    lists of [N].  Whitespace is CPython's table ([str.isspace], also
    used by [str.strip], [str.split] and the regex class [\s]).  Case
    conversion ([str.lower], [str.capitalize]) follows the tables of the
    Unicode database as Python 3.11 carries them (Unicode 14.0), with the
    rule for the final sigma. *)

From Stdlib Require Import String Ascii.
From Stdlib Require Import List NArith ZArith Arith Bool Lia Permutation.
Import ListNotations.

Set Implicit Arguments.

(** ** Strings *)

Definition char := N.
Definition str := list char.

(** An ASCII literal of the source as a list of code points. *)
Definition lit (s : string) : str :=
  map N_of_ascii (list_ascii_of_string s).

Definition char_eqb (a b : char) : bool := N.eqb a b.

Fixpoint str_eqb (a b : str) : bool :=
  match a, b with
  | [], [] => true
  | x :: a', y :: b' => char_eqb x y && str_eqb a' b'
  | _, _ => false
  end.

Definition in_range (lo hi c : N) : bool := (N.leb lo c) && (N.leb c hi).

(** [Py_UNICODE_ISSPACE]: the code points Python treats as whitespace. *)
Definition isspace (c : char) : bool :=
  in_range 9 13 c || in_range 28 32 c || N.eqb c 133 || N.eqb c 160
  || N.eqb c 5760 || in_range 8192 8202 c || N.eqb c 8232 || N.eqb c 8233
  || N.eqb c 8239 || N.eqb c 8287 || N.eqb c 12288.

(** The regex classes [[a-z]], [[A-Z]] and [[a-zA-Z]]. *)
Definition is_lower (c : char) : bool := in_range 97 122 c.
Definition is_upper (c : char) : bool := in_range 65 90 c.
Definition is_alpha (c : char) : bool := is_lower c || is_upper c.

(** ** Case conversion

    Python converts case with the tables of the Unicode database (version
    14.0 in Python 3.11).  A range [(lo, hi, step, to)] maps the code
    points [lo], [lo + step], ..., [hi] to [to], [to + step], ...; the
    special tables hold the code points that become several; every other
    code point is left as it is. *)

Definition case_range : Type := (N * N * N * N)%type.

Definition range_hit (r : case_range) (c : char) : option char :=
  let '(lo, hi, step, to) := r in
  if in_range lo hi c && N.eqb (N.modulo (c - lo) step) 0
  then Some (to + (c - lo))%N
  else None.

Fixpoint lookup_range (t : list case_range) (c : char) : option char :=
  match t with
  | [] => None
  | r :: t' =>
      match range_hit r c with
      | Some d => Some d
      | None => lookup_range t' c
      end
  end.

Fixpoint lookup_special (t : list (char * str)) (c : char) : option str :=
  match t with
  | [] => None
  | (k, s) :: t' => if N.eqb k c then Some s else lookup_special t' c
  end.

Definition case_map (special : list (char * str)) (ranges : list case_range)
  (c : char) : str :=
  match lookup_special special c with
  | Some s => s
  | None =>
      match lookup_range ranges c with
      | Some d => [d]
      | None => [c]
      end
  end.

(** The lower-case mapping. *)
Definition LOWER_RANGES : list case_range :=
  [
   (65, 90, 1, 97); (192, 214, 1, 224); (216, 222, 1, 248);
   (256, 302, 2, 257); (306, 310, 2, 307); (313, 327, 2, 314);
   (330, 374, 2, 331); (376, 376, 1, 255); (377, 381, 2, 378);
   (385, 385, 1, 595); (386, 388, 2, 387); (390, 390, 1, 596);
   (391, 391, 1, 392); (393, 394, 1, 598); (395, 395, 1, 396);
   (398, 398, 1, 477); (399, 399, 1, 601); (400, 400, 1, 603);
   (401, 401, 1, 402); (403, 403, 1, 608); (404, 404, 1, 611);
   (406, 406, 1, 617); (407, 407, 1, 616); (408, 408, 1, 409);
   (412, 412, 1, 623); (413, 413, 1, 626); (415, 415, 1, 629);
   (416, 420, 2, 417); (422, 422, 1, 640); (423, 423, 1, 424);
   (425, 425, 1, 643); (428, 428, 1, 429); (430, 430, 1, 648);
   (431, 431, 1, 432); (433, 434, 1, 650); (435, 437, 2, 436);
   (439, 439, 1, 658); (440, 440, 1, 441); (444, 444, 1, 445);
   (452, 452, 1, 454); (453, 453, 1, 454); (455, 455, 1, 457);
   (456, 456, 1, 457); (458, 458, 1, 460); (459, 475, 2, 460);
   (478, 494, 2, 479); (497, 497, 1, 499); (498, 500, 2, 499);
   (502, 502, 1, 405); (503, 503, 1, 447); (504, 542, 2, 505);
   (544, 544, 1, 414); (546, 562, 2, 547); (570, 570, 1, 11365);
   (571, 571, 1, 572); (573, 573, 1, 410); (574, 574, 1, 11366);
   (577, 577, 1, 578); (579, 579, 1, 384); (580, 580, 1, 649);
   (581, 581, 1, 652); (582, 590, 2, 583); (880, 882, 2, 881);
   (886, 886, 1, 887); (895, 895, 1, 1011); (902, 902, 1, 940);
   (904, 906, 1, 941); (908, 908, 1, 972); (910, 911, 1, 973);
   (913, 929, 1, 945); (931, 939, 1, 963); (975, 975, 1, 983);
   (984, 1006, 2, 985); (1012, 1012, 1, 952); (1015, 1015, 1, 1016);
   (1017, 1017, 1, 1010); (1018, 1018, 1, 1019); (1021, 1023, 1, 891);
   (1024, 1039, 1, 1104); (1040, 1071, 1, 1072); (1120, 1152, 2, 1121);
   (1162, 1214, 2, 1163); (1216, 1216, 1, 1231); (1217, 1229, 2, 1218);
   (1232, 1326, 2, 1233); (1329, 1366, 1, 1377); (4256, 4293, 1, 11520);
   (4295, 4295, 1, 11559); (4301, 4301, 1, 11565); (5024, 5103, 1, 43888);
   (5104, 5109, 1, 5112); (7312, 7354, 1, 4304); (7357, 7359, 1, 4349);
   (7680, 7828, 2, 7681); (7838, 7838, 1, 223); (7840, 7934, 2, 7841);
   (7944, 7951, 1, 7936); (7960, 7965, 1, 7952); (7976, 7983, 1, 7968);
   (7992, 7999, 1, 7984); (8008, 8013, 1, 8000); (8025, 8031, 2, 8017);
   (8040, 8047, 1, 8032); (8072, 8079, 1, 8064); (8088, 8095, 1, 8080);
   (8104, 8111, 1, 8096); (8120, 8121, 1, 8112); (8122, 8123, 1, 8048);
   (8124, 8124, 1, 8115); (8136, 8139, 1, 8050); (8140, 8140, 1, 8131);
   (8152, 8153, 1, 8144); (8154, 8155, 1, 8054); (8168, 8169, 1, 8160);
   (8170, 8171, 1, 8058); (8172, 8172, 1, 8165); (8184, 8185, 1, 8056);
   (8186, 8187, 1, 8060); (8188, 8188, 1, 8179); (8486, 8486, 1, 969);
   (8490, 8490, 1, 107); (8491, 8491, 1, 229); (8498, 8498, 1, 8526);
   (8544, 8559, 1, 8560); (8579, 8579, 1, 8580); (9398, 9423, 1, 9424);
   (11264, 11311, 1, 11312); (11360, 11360, 1, 11361);
   (11362, 11362, 1, 619); (11363, 11363, 1, 7549); (11364, 11364, 1, 637);
   (11367, 11371, 2, 11368); (11373, 11373, 1, 593);
   (11374, 11374, 1, 625); (11375, 11375, 1, 592); (11376, 11376, 1, 594);
   (11378, 11378, 1, 11379); (11381, 11381, 1, 11382);
   (11390, 11391, 1, 575); (11392, 11490, 2, 11393);
   (11499, 11501, 2, 11500); (11506, 11506, 1, 11507);
   (42560, 42604, 2, 42561); (42624, 42650, 2, 42625);
   (42786, 42798, 2, 42787); (42802, 42862, 2, 42803);
   (42873, 42875, 2, 42874); (42877, 42877, 1, 7545);
   (42878, 42886, 2, 42879); (42891, 42891, 1, 42892);
   (42893, 42893, 1, 613); (42896, 42898, 2, 42897);
   (42902, 42920, 2, 42903); (42922, 42922, 1, 614);
   (42923, 42923, 1, 604); (42924, 42924, 1, 609); (42925, 42925, 1, 620);
   (42926, 42926, 1, 618); (42928, 42928, 1, 670); (42929, 42929, 1, 647);
   (42930, 42930, 1, 669); (42931, 42931, 1, 43859);
   (42932, 42946, 2, 42933); (42948, 42948, 1, 42900);
   (42949, 42949, 1, 642); (42950, 42950, 1, 7566);
   (42951, 42953, 2, 42952); (42960, 42960, 1, 42961);
   (42966, 42968, 2, 42967); (42997, 42997, 1, 42998);
   (65313, 65338, 1, 65345); (66560, 66599, 1, 66600);
   (66736, 66771, 1, 66776); (66928, 66938, 1, 66967);
   (66940, 66954, 1, 66979); (66956, 66962, 1, 66995);
   (66964, 66965, 1, 67003); (68736, 68786, 1, 68800);
   (71840, 71871, 1, 71872); (93760, 93791, 1, 93792);
   (125184, 125217, 1, 125218)
  ]%N.

Definition LOWER_SPECIAL : list (char * str) :=
  [
   (304, [105; 775])
  ]%N.

(** The title-case mapping. *)
Definition TITLE_RANGES : list case_range :=
  [
   (97, 122, 1, 65); (181, 181, 1, 924); (224, 246, 1, 192);
   (248, 254, 1, 216); (255, 255, 1, 376); (257, 303, 2, 256);
   (305, 305, 1, 73); (307, 311, 2, 306); (314, 328, 2, 313);
   (331, 375, 2, 330); (378, 382, 2, 377); (383, 383, 1, 83);
   (384, 384, 1, 579); (387, 389, 2, 386); (392, 392, 1, 391);
   (396, 396, 1, 395); (402, 402, 1, 401); (405, 405, 1, 502);
   (409, 409, 1, 408); (410, 410, 1, 573); (414, 414, 1, 544);
   (417, 421, 2, 416); (424, 424, 1, 423); (429, 429, 1, 428);
   (432, 432, 1, 431); (436, 438, 2, 435); (441, 441, 1, 440);
   (445, 445, 1, 444); (447, 447, 1, 503); (452, 452, 1, 453);
   (454, 454, 1, 453); (455, 455, 1, 456); (457, 457, 1, 456);
   (458, 458, 1, 459); (460, 476, 2, 459); (477, 477, 1, 398);
   (479, 495, 2, 478); (497, 497, 1, 498); (499, 501, 2, 498);
   (505, 543, 2, 504); (547, 563, 2, 546); (572, 572, 1, 571);
   (575, 576, 1, 11390); (578, 578, 1, 577); (583, 591, 2, 582);
   (592, 592, 1, 11375); (593, 593, 1, 11373); (594, 594, 1, 11376);
   (595, 595, 1, 385); (596, 596, 1, 390); (598, 599, 1, 393);
   (601, 601, 1, 399); (603, 603, 1, 400); (604, 604, 1, 42923);
   (608, 608, 1, 403); (609, 609, 1, 42924); (611, 611, 1, 404);
   (613, 613, 1, 42893); (614, 614, 1, 42922); (616, 616, 1, 407);
   (617, 617, 1, 406); (618, 618, 1, 42926); (619, 619, 1, 11362);
   (620, 620, 1, 42925); (623, 623, 1, 412); (625, 625, 1, 11374);
   (626, 626, 1, 413); (629, 629, 1, 415); (637, 637, 1, 11364);
   (640, 640, 1, 422); (642, 642, 1, 42949); (643, 643, 1, 425);
   (647, 647, 1, 42929); (648, 648, 1, 430); (649, 649, 1, 580);
   (650, 651, 1, 433); (652, 652, 1, 581); (658, 658, 1, 439);
   (669, 669, 1, 42930); (670, 670, 1, 42928); (837, 837, 1, 921);
   (881, 883, 2, 880); (887, 887, 1, 886); (891, 893, 1, 1021);
   (940, 940, 1, 902); (941, 943, 1, 904); (945, 961, 1, 913);
   (962, 962, 1, 931); (963, 971, 1, 931); (972, 972, 1, 908);
   (973, 974, 1, 910); (976, 976, 1, 914); (977, 977, 1, 920);
   (981, 981, 1, 934); (982, 982, 1, 928); (983, 983, 1, 975);
   (985, 1007, 2, 984); (1008, 1008, 1, 922); (1009, 1009, 1, 929);
   (1010, 1010, 1, 1017); (1011, 1011, 1, 895); (1013, 1013, 1, 917);
   (1016, 1016, 1, 1015); (1019, 1019, 1, 1018); (1072, 1103, 1, 1040);
   (1104, 1119, 1, 1024); (1121, 1153, 2, 1120); (1163, 1215, 2, 1162);
   (1218, 1230, 2, 1217); (1231, 1231, 1, 1216); (1233, 1327, 2, 1232);
   (1377, 1414, 1, 1329); (5112, 5117, 1, 5104); (7296, 7296, 1, 1042);
   (7297, 7297, 1, 1044); (7298, 7298, 1, 1054); (7299, 7300, 1, 1057);
   (7301, 7301, 1, 1058); (7302, 7302, 1, 1066); (7303, 7303, 1, 1122);
   (7304, 7304, 1, 42570); (7545, 7545, 1, 42877); (7549, 7549, 1, 11363);
   (7566, 7566, 1, 42950); (7681, 7829, 2, 7680); (7835, 7835, 1, 7776);
   (7841, 7935, 2, 7840); (7936, 7943, 1, 7944); (7952, 7957, 1, 7960);
   (7968, 7975, 1, 7976); (7984, 7991, 1, 7992); (8000, 8005, 1, 8008);
   (8017, 8023, 2, 8025); (8032, 8039, 1, 8040); (8048, 8049, 1, 8122);
   (8050, 8053, 1, 8136); (8054, 8055, 1, 8154); (8056, 8057, 1, 8184);
   (8058, 8059, 1, 8170); (8060, 8061, 1, 8186); (8064, 8071, 1, 8072);
   (8080, 8087, 1, 8088); (8096, 8103, 1, 8104); (8112, 8113, 1, 8120);
   (8115, 8115, 1, 8124); (8126, 8126, 1, 921); (8131, 8131, 1, 8140);
   (8144, 8145, 1, 8152); (8160, 8161, 1, 8168); (8165, 8165, 1, 8172);
   (8179, 8179, 1, 8188); (8526, 8526, 1, 8498); (8560, 8575, 1, 8544);
   (8580, 8580, 1, 8579); (9424, 9449, 1, 9398); (11312, 11359, 1, 11264);
   (11361, 11361, 1, 11360); (11365, 11365, 1, 570);
   (11366, 11366, 1, 574); (11368, 11372, 2, 11367);
   (11379, 11379, 1, 11378); (11382, 11382, 1, 11381);
   (11393, 11491, 2, 11392); (11500, 11502, 2, 11499);
   (11507, 11507, 1, 11506); (11520, 11557, 1, 4256);
   (11559, 11559, 1, 4295); (11565, 11565, 1, 4301);
   (42561, 42605, 2, 42560); (42625, 42651, 2, 42624);
   (42787, 42799, 2, 42786); (42803, 42863, 2, 42802);
   (42874, 42876, 2, 42873); (42879, 42887, 2, 42878);
   (42892, 42892, 1, 42891); (42897, 42899, 2, 42896);
   (42900, 42900, 1, 42948); (42903, 42921, 2, 42902);
   (42933, 42947, 2, 42932); (42952, 42954, 2, 42951);
   (42961, 42961, 1, 42960); (42967, 42969, 2, 42966);
   (42998, 42998, 1, 42997); (43859, 43859, 1, 42931);
   (43888, 43967, 1, 5024); (65345, 65370, 1, 65313);
   (66600, 66639, 1, 66560); (66776, 66811, 1, 66736);
   (66967, 66977, 1, 66928); (66979, 66993, 1, 66940);
   (66995, 67001, 1, 66956); (67003, 67004, 1, 66964);
   (68800, 68850, 1, 68736); (71872, 71903, 1, 71840);
   (93792, 93823, 1, 93760); (125218, 125251, 1, 125184)
  ]%N.

Definition TITLE_SPECIAL : list (char * str) :=
  [
   (223, [83; 115]); (329, [700; 78]); (496, [74; 780]);
   (912, [921; 776; 769]); (944, [933; 776; 769]); (1415, [1333; 1410]);
   (7830, [72; 817]); (7831, [84; 776]); (7832, [87; 778]);
   (7833, [89; 778]); (7834, [65; 702]); (8016, [933; 787]);
   (8018, [933; 787; 768]); (8020, [933; 787; 769]);
   (8022, [933; 787; 834]); (8114, [8122; 837]); (8116, [902; 837]);
   (8118, [913; 834]); (8119, [913; 834; 837]); (8130, [8138; 837]);
   (8132, [905; 837]); (8134, [919; 834]); (8135, [919; 834; 837]);
   (8146, [921; 776; 768]); (8147, [921; 776; 769]); (8150, [921; 834]);
   (8151, [921; 776; 834]); (8162, [933; 776; 768]);
   (8163, [933; 776; 769]); (8164, [929; 787]); (8166, [933; 834]);
   (8167, [933; 776; 834]); (8178, [8186; 837]); (8180, [911; 837]);
   (8182, [937; 834]); (8183, [937; 834; 837]); (64256, [70; 102]);
   (64257, [70; 105]); (64258, [70; 108]); (64259, [70; 102; 105]);
   (64260, [70; 102; 108]); (64261, [83; 116]); (64262, [83; 116]);
   (64275, [1348; 1398]); (64276, [1348; 1381]); (64277, [1348; 1387]);
   (64278, [1358; 1398]); (64279, [1348; 1389])
  ]%N.

(** The code points with the property [Case_Ignorable]. *)
Definition CASE_IGNORABLE : list (N * N) :=
  [
   (39, 39); (46, 46); (58, 58); (94, 94); (96, 96); (168, 168);
   (173, 173); (175, 175); (180, 180); (183, 184); (688, 879); (884, 885);
   (890, 890); (900, 901); (903, 903); (1155, 1161); (1369, 1369);
   (1375, 1375); (1425, 1469); (1471, 1471); (1473, 1474); (1476, 1477);
   (1479, 1479); (1524, 1524); (1536, 1541); (1552, 1562); (1564, 1564);
   (1600, 1600); (1611, 1631); (1648, 1648); (1750, 1757); (1759, 1768);
   (1770, 1773); (1807, 1807); (1809, 1809); (1840, 1866); (1958, 1968);
   (2027, 2037); (2042, 2042); (2045, 2045); (2070, 2093); (2137, 2139);
   (2184, 2184); (2192, 2193); (2200, 2207); (2249, 2306); (2362, 2362);
   (2364, 2364); (2369, 2376); (2381, 2381); (2385, 2391); (2402, 2403);
   (2417, 2417); (2433, 2433); (2492, 2492); (2497, 2500); (2509, 2509);
   (2530, 2531); (2558, 2558); (2561, 2562); (2620, 2620); (2625, 2626);
   (2631, 2632); (2635, 2637); (2641, 2641); (2672, 2673); (2677, 2677);
   (2689, 2690); (2748, 2748); (2753, 2757); (2759, 2760); (2765, 2765);
   (2786, 2787); (2810, 2815); (2817, 2817); (2876, 2876); (2879, 2879);
   (2881, 2884); (2893, 2893); (2901, 2902); (2914, 2915); (2946, 2946);
   (3008, 3008); (3021, 3021); (3072, 3072); (3076, 3076); (3132, 3132);
   (3134, 3136); (3142, 3144); (3146, 3149); (3157, 3158); (3170, 3171);
   (3201, 3201); (3260, 3260); (3263, 3263); (3270, 3270); (3276, 3277);
   (3298, 3299); (3328, 3329); (3387, 3388); (3393, 3396); (3405, 3405);
   (3426, 3427); (3457, 3457); (3530, 3530); (3538, 3540); (3542, 3542);
   (3633, 3633); (3636, 3642); (3654, 3662); (3761, 3761); (3764, 3772);
   (3782, 3782); (3784, 3789); (3864, 3865); (3893, 3893); (3895, 3895);
   (3897, 3897); (3953, 3966); (3968, 3972); (3974, 3975); (3981, 3991);
   (3993, 4028); (4038, 4038); (4141, 4144); (4146, 4151); (4153, 4154);
   (4157, 4158); (4184, 4185); (4190, 4192); (4209, 4212); (4226, 4226);
   (4229, 4230); (4237, 4237); (4253, 4253); (4348, 4348); (4957, 4959);
   (5906, 5908); (5938, 5939); (5970, 5971); (6002, 6003); (6068, 6069);
   (6071, 6077); (6086, 6086); (6089, 6099); (6103, 6103); (6109, 6109);
   (6155, 6159); (6211, 6211); (6277, 6278); (6313, 6313); (6432, 6434);
   (6439, 6440); (6450, 6450); (6457, 6459); (6679, 6680); (6683, 6683);
   (6742, 6742); (6744, 6750); (6752, 6752); (6754, 6754); (6757, 6764);
   (6771, 6780); (6783, 6783); (6823, 6823); (6832, 6862); (6912, 6915);
   (6964, 6964); (6966, 6970); (6972, 6972); (6978, 6978); (7019, 7027);
   (7040, 7041); (7074, 7077); (7080, 7081); (7083, 7085); (7142, 7142);
   (7144, 7145); (7149, 7149); (7151, 7153); (7212, 7219); (7222, 7223);
   (7288, 7293); (7376, 7378); (7380, 7392); (7394, 7400); (7405, 7405);
   (7412, 7412); (7416, 7417); (7468, 7530); (7544, 7544); (7579, 7679);
   (8125, 8125); (8127, 8129); (8141, 8143); (8157, 8159); (8173, 8175);
   (8189, 8190); (8203, 8207); (8216, 8217); (8228, 8228); (8231, 8231);
   (8234, 8238); (8288, 8292); (8294, 8303); (8305, 8305); (8319, 8319);
   (8336, 8348); (8400, 8432); (11388, 11389); (11503, 11505);
   (11631, 11631); (11647, 11647); (11744, 11775); (11823, 11823);
   (12293, 12293); (12330, 12333); (12337, 12341); (12347, 12347);
   (12441, 12446); (12540, 12542); (40981, 40981); (42232, 42237);
   (42508, 42508); (42607, 42610); (42612, 42621); (42623, 42623);
   (42652, 42655); (42736, 42737); (42752, 42785); (42864, 42864);
   (42888, 42890); (42994, 42996); (43000, 43001); (43010, 43010);
   (43014, 43014); (43019, 43019); (43045, 43046); (43052, 43052);
   (43204, 43205); (43232, 43249); (43263, 43263); (43302, 43309);
   (43335, 43345); (43392, 43394); (43443, 43443); (43446, 43449);
   (43452, 43453); (43471, 43471); (43493, 43494); (43561, 43566);
   (43569, 43570); (43573, 43574); (43587, 43587); (43596, 43596);
   (43632, 43632); (43644, 43644); (43696, 43696); (43698, 43700);
   (43703, 43704); (43710, 43711); (43713, 43713); (43741, 43741);
   (43756, 43757); (43763, 43764); (43766, 43766); (43867, 43871);
   (43881, 43883); (44005, 44005); (44008, 44008); (44013, 44013);
   (64286, 64286); (64434, 64450); (65024, 65039); (65043, 65043);
   (65056, 65071); (65106, 65106); (65109, 65109); (65279, 65279);
   (65287, 65287); (65294, 65294); (65306, 65306); (65342, 65342);
   (65344, 65344); (65392, 65392); (65438, 65439); (65507, 65507);
   (65529, 65531); (66045, 66045); (66272, 66272); (66422, 66426);
   (67456, 67461); (67463, 67504); (67506, 67514); (68097, 68099);
   (68101, 68102); (68108, 68111); (68152, 68154); (68159, 68159);
   (68325, 68326); (68900, 68903); (69291, 69292); (69446, 69456);
   (69506, 69509); (69633, 69633); (69688, 69702); (69744, 69744);
   (69747, 69748); (69759, 69761); (69811, 69814); (69817, 69818);
   (69821, 69821); (69826, 69826); (69837, 69837); (69888, 69890);
   (69927, 69931); (69933, 69940); (70003, 70003); (70016, 70017);
   (70070, 70078); (70089, 70092); (70095, 70095); (70191, 70193);
   (70196, 70196); (70198, 70199); (70206, 70206); (70367, 70367);
   (70371, 70378); (70400, 70401); (70459, 70460); (70464, 70464);
   (70502, 70508); (70512, 70516); (70712, 70719); (70722, 70724);
   (70726, 70726); (70750, 70750); (70835, 70840); (70842, 70842);
   (70847, 70848); (70850, 70851); (71090, 71093); (71100, 71101);
   (71103, 71104); (71132, 71133); (71219, 71226); (71229, 71229);
   (71231, 71232); (71339, 71339); (71341, 71341); (71344, 71349);
   (71351, 71351); (71453, 71455); (71458, 71461); (71463, 71467);
   (71727, 71735); (71737, 71738); (71995, 71996); (71998, 71998);
   (72003, 72003); (72148, 72151); (72154, 72155); (72160, 72160);
   (72193, 72202); (72243, 72248); (72251, 72254); (72263, 72263);
   (72273, 72278); (72281, 72283); (72330, 72342); (72344, 72345);
   (72752, 72758); (72760, 72765); (72767, 72767); (72850, 72871);
   (72874, 72880); (72882, 72883); (72885, 72886); (73009, 73014);
   (73018, 73018); (73020, 73021); (73023, 73029); (73031, 73031);
   (73104, 73105); (73109, 73109); (73111, 73111); (73459, 73460);
   (78896, 78904); (92912, 92916); (92976, 92982); (92992, 92995);
   (94031, 94031); (94095, 94111); (94176, 94177); (94179, 94180);
   (110576, 110579); (110581, 110587); (110589, 110590); (113821, 113822);
   (113824, 113827); (118528, 118573); (118576, 118598); (119143, 119145);
   (119155, 119170); (119173, 119179); (119210, 119213); (119362, 119364);
   (121344, 121398); (121403, 121452); (121461, 121461); (121476, 121476);
   (121499, 121503); (121505, 121519); (122880, 122886); (122888, 122904);
   (122907, 122913); (122915, 122916); (122918, 122922); (123184, 123197);
   (123566, 123566); (123628, 123631); (125136, 125142); (125252, 125259);
   (127995, 127999); (917505, 917505); (917536, 917631); (917760, 917999)
  ]%N.

(** The code points with the property [Cased]. *)
Definition CASED : list (N * N) :=
  [
   (65, 90); (97, 122); (170, 170); (181, 181); (186, 186); (192, 214);
   (216, 246); (248, 442); (444, 447); (452, 659); (661, 696); (704, 705);
   (736, 740); (837, 837); (880, 883); (886, 887); (890, 893); (895, 895);
   (902, 902); (904, 906); (908, 908); (910, 929); (931, 1013);
   (1015, 1153); (1162, 1327); (1329, 1366); (1376, 1416); (4256, 4293);
   (4295, 4295); (4301, 4301); (4304, 4346); (4349, 4351); (5024, 5109);
   (5112, 5117); (7296, 7304); (7312, 7354); (7357, 7359); (7424, 7615);
   (7680, 7957); (7960, 7965); (7968, 8005); (8008, 8013); (8016, 8023);
   (8025, 8025); (8027, 8027); (8029, 8029); (8031, 8061); (8064, 8116);
   (8118, 8124); (8126, 8126); (8130, 8132); (8134, 8140); (8144, 8147);
   (8150, 8155); (8160, 8172); (8178, 8180); (8182, 8188); (8305, 8305);
   (8319, 8319); (8336, 8348); (8450, 8450); (8455, 8455); (8458, 8467);
   (8469, 8469); (8473, 8477); (8484, 8484); (8486, 8486); (8488, 8488);
   (8490, 8493); (8495, 8500); (8505, 8505); (8508, 8511); (8517, 8521);
   (8526, 8526); (8544, 8575); (8579, 8580); (9398, 9449); (11264, 11492);
   (11499, 11502); (11506, 11507); (11520, 11557); (11559, 11559);
   (11565, 11565); (42560, 42605); (42624, 42653); (42786, 42887);
   (42891, 42894); (42896, 42954); (42960, 42961); (42963, 42963);
   (42965, 42969); (42997, 42998); (43000, 43002); (43824, 43866);
   (43868, 43880); (43888, 43967); (64256, 64262); (64275, 64279);
   (65313, 65338); (65345, 65370); (66560, 66639); (66736, 66771);
   (66776, 66811); (66928, 66938); (66940, 66954); (66956, 66962);
   (66964, 66965); (66967, 66977); (66979, 66993); (66995, 67001);
   (67003, 67004); (67456, 67456); (67459, 67461); (67463, 67504);
   (67506, 67514); (68736, 68786); (68800, 68850); (71840, 71903);
   (93760, 93823); (119808, 119892); (119894, 119964); (119966, 119967);
   (119970, 119970); (119973, 119974); (119977, 119980); (119982, 119993);
   (119995, 119995); (119997, 120003); (120005, 120069); (120071, 120074);
   (120077, 120084); (120086, 120092); (120094, 120121); (120123, 120126);
   (120128, 120132); (120134, 120134); (120138, 120144); (120146, 120485);
   (120488, 120512); (120514, 120538); (120540, 120570); (120572, 120596);
   (120598, 120628); (120630, 120654); (120656, 120686); (120688, 120712);
   (120714, 120744); (120746, 120770); (120772, 120779); (122624, 122633);
   (122635, 122654); (125184, 125251); (127280, 127305); (127312, 127337);
   (127344, 127369)
  ]%N.

(** [_PyUnicode_ToLowerFull] and [_PyUnicode_ToTitleFull] *)
Definition to_lower_full (c : char) : str := case_map LOWER_SPECIAL LOWER_RANGES c.
Definition to_title_full (c : char) : str := case_map TITLE_SPECIAL TITLE_RANGES c.

Definition in_ranges (t : list (N * N)) (c : char) : bool :=
  existsb (fun r => in_range (fst r) (snd r) c) t.

Definition is_case_ignorable (c : char) : bool := in_ranges CASE_IGNORABLE c.
Definition is_cased (c : char) : bool := in_ranges CASED c.

(** The first character that is not case-ignorable. *)
Fixpoint skip_ignorable (s : str) : option char :=
  match s with
  | [] => None
  | c :: t => if is_case_ignorable c then skip_ignorable t else Some c
  end.

(** A capital sigma is final when a cased letter comes before it and none
    comes after it, case-ignorable characters set aside.  [before] is the
    text before the sigma, nearest character first. *)
Definition final_sigma (before after : str) : bool :=
  match skip_ignorable before with
  | Some c => is_cased c
  | None => false
  end
  && match skip_ignorable after with
     | Some c => negb (is_cased c)
     | None => true
     end.

Definition CAPITAL_SIGMA : char := 931%N.

(** The lower case of [c] between [before] and [after]. *)
Definition lower_at (before : str) (c : char) (after : str) : str :=
  if N.eqb c CAPITAL_SIGMA
  then [if final_sigma before after then 962%N else 963%N]
  else to_lower_full c.

Fixpoint lower_from (before : str) (s : str) : str :=
  match s with
  | [] => []
  | c :: t => lower_at before c t ++ lower_from (c :: before) t
  end.

(** [s.lower()] *)
Definition lower (s : str) : str := lower_from [] s.

(** [s.capitalize()]: the first character in title case, the rest in
    lower case. *)
Definition capitalize (s : str) : str :=
  match s with
  | [] => []
  | c :: t => to_title_full c ++ lower_from [c] t
  end.

(** ** Trimming, prefixes, lines and words *)

Fixpoint lstrip (s : str) : str :=
  match s with
  | [] => []
  | c :: t => if isspace c then lstrip t else s
  end.

Definition rstrip (s : str) : str := rev (lstrip (rev s)).

(** [s.strip()] *)
Definition strip (s : str) : str := rstrip (lstrip s).

(** [s.startswith(p)] *)
Fixpoint startswith (p s : str) : bool :=
  match p, s with
  | [], _ => true
  | _ :: _, [] => false
  | x :: p', y :: s' => char_eqb x y && startswith p' s'
  end.

(** [s.startswith((p1, ..., pn))] *)
Definition startswith_any (ps : list str) (s : str) : bool :=
  existsb (fun p => startswith p s) ps.

(** [s.endswith(p)] *)
Definition endswith (p s : str) : bool := startswith (rev p) (rev s).

(** [c in s] for a one-character string [c]. *)
Definition contains_char (c : char) (s : str) : bool := existsb (char_eqb c) s.

(** [p in s] for strings: substring test. *)
Fixpoint is_substring (p s : str) : bool :=
  startswith p s ||
  match s with
  | [] => false
  | _ :: t => is_substring p t
  end.

Definition NL : char := 10%N.
Definition SP : char := 32%N.
Definition QM : char := 63%N.

(** [s.split("\n")] *)
Fixpoint split_nl (s : str) : list str :=
  match s with
  | [] => [[]]
  | c :: t =>
      if char_eqb c NL then [] :: split_nl t
      else match split_nl t with
           | h :: r => (c :: h) :: r
           | [] => [[c]]
           end
  end.

(** ["\n".join(l)] *)
Fixpoint join_nl (l : list str) : str :=
  match l with
  | [] => []
  | [x] => x
  | x :: r => x ++ NL :: join_nl r
  end.

(** [s.split()]: the maximal runs of non-whitespace characters. [cur] is
    the word being read, most recent character first. *)
Fixpoint split_ws_from (cur : str) (s : str) : list str :=
  match s with
  | [] => match cur with [] => [] | _ => [rev cur] end
  | c :: t =>
      if isspace c then
        match cur with
        | [] => split_ws_from [] t
        | _ => rev cur :: split_ws_from [] t
        end
      else split_ws_from (c :: cur) t
  end.

Definition split_ws (s : str) : list str := split_ws_from [] s.

(** [list(dict.fromkeys(l))]: the keys in order of first insertion. *)
Definition mem (x : str) (l : list str) : bool := existsb (str_eqb x) l.

(** Inserting a key into the dict: a key already present keeps its place. *)
Definition add_key (keys : list str) (k : str) : list str :=
  if mem k keys then keys else keys ++ [k].

Definition dict_fromkeys (l : list str) : list str :=
  fold_left add_key l [].

(** ** Regular expressions of the program *)

(** [re.sub(r"([a-z])([A-Z])", r"\1 \2", s)]: matches do not overlap, and
    scanning resumes after the upper-case letter of a match. *)
Fixpoint sub_camel (s : str) : str :=
  match s with
  | [] => []
  | a :: t =>
      match t with
      | b :: r =>
          if is_lower a && is_upper b then a :: SP :: b :: sub_camel r
          else a :: sub_camel t
      | [] => [a]
      end
  end.

(** The class [[•\-–—]]: bullet, hyphen-minus, en dash, em dash. *)
Definition is_bullet (c : char) : bool :=
  N.eqb c 8226 || N.eqb c 45 || N.eqb c 8211 || N.eqb c 8212.

(** [re.sub(r"[•\-–—]", " ", s)] *)
Definition sub_bullets (s : str) : str :=
  map (fun c => if is_bullet c then SP else c) s.

(** [re.sub(r"\s+", " ", s)]: every maximal whitespace run becomes one
    space; the space is emitted at the last character of the run. *)
Fixpoint sub_spaces (s : str) : str :=
  match s with
  | [] => []
  | c :: t =>
      if isspace c then
        match t with
        | d :: _ => if isspace d then sub_spaces t else SP :: sub_spaces t
        | [] => [SP]
        end
      else c :: sub_spaces t
  end.

(** [re.split(r"\n|\?\s*", s)].  [skipping] holds while the [\s*] that
    follows a question mark is being consumed; [cur] is the fragment being
    read, most recent character first. *)
Fixpoint re_split_from (skipping : bool) (cur : str) (s : str) : list str :=
  match s with
  | [] => [rev cur]
  | c :: t =>
      if skipping && isspace c then re_split_from true cur t
      else if char_eqb c NL then rev cur :: re_split_from false [] t
      else if char_eqb c QM then rev cur :: re_split_from true [] t
      else re_split_from false (c :: cur) t
  end.

Definition re_split (s : str) : list str := re_split_from false [] s.

(** [re.findall(r"[a-zA-Z]{4,}", s)]: the maximal runs of letters that
    have at least four characters. *)
Definition emit_run (cur : str) : list str :=
  if 4 <=? length cur then [rev cur] else [].

Fixpoint findall_from (cur : str) (s : str) : list str :=
  match s with
  | [] => emit_run cur
  | c :: t =>
      if is_alpha c then findall_from (c :: cur) t
      else emit_run cur ++ findall_from [] t
  end.

Definition findall_words (s : str) : list str := findall_from [] s.

(** ** Configuration *)

Definition UPLOAD_FOLDER : str := lit "uploads".

Definition MIN_QUESTIONS : nat := 5.

Definition STOP_WORDS : list str :=
  map lit
    ["define"; "explain"; "describe"; "what"; "why"; "how"; "importance";
     "advantages"; "various"; "related"; "difference"; "differentiate";
     "model"; "models"; "concept"; "used"; "between"]%string.

(** ** Candidate scanner *)

Definition QUESTION_VERBS : list str :=
  map lit ["define"; "explain"; "describe"; "differentiate"; "compare"]%string.

(** The test of [app.py], line 48, on a trimmed line. *)
Definition looks_like_question (line : str) : bool :=
  contains_char QM line || startswith_any QUESTION_VERBS (lower line).

(** The three substitutions and the final [strip] of lines 51 to 55. *)
Definition normalize (line : str) : str :=
  strip (sub_spaces (sub_bullets (sub_camel line))).

(** One iteration of the loop over the lines; [questions] is the list
    being appended to. *)
Definition scan_line (questions : list str) (line : str) : list str :=
  let line := strip line in
  if length line <? 25 then questions
  else if looks_like_question line then questions ++ [normalize line]
  else questions.

Definition extract_question_candidates (text : str) : list str :=
  let questions := fold_left scan_line (split_nl text) [] in
  dict_fromkeys questions.

(** ** Template fallback *)

Definition topics : list str :=
  map lit
    ["database management system"; "data model"; "entity relationship model";
     "normalization"; "transaction management"; "concurrency control";
     "database architecture"; "relational model"; "indexing"; "sql";
     "data independence"; "acid properties"]%string.

Definition templates : list str :=
  map lit
    ["Define {}?"; "Explain {}."; "Describe {} with an example.";
     "Differentiate {} and relational databases.";
     "Explain the importance of {}."]%string.

(** [t.format(arg)] for a template whose only braces are those of one
    replacement field [{}], as the five templates of the program are: the
    field is replaced by the argument.  ([str.format] raises on other
    uses of braces; they are outside this function.) *)
Fixpoint format (t : str) (arg : str) : str :=
  match t with
  | [] => []
  | a :: r =>
      match r with
      | b :: r' =>
          if char_eqb a 123%N && char_eqb b 125%N then arg ++ r'
          else a :: format r arg
      | [] => [a]
      end
  end.

(** A [for] loop whose body either goes on with a new state ([inl]) or
    leaves the function with a value ([inr], a [return] inside the loop). *)
Fixpoint for_each {X S R : Type} (body : S -> X -> S + R) (xs : list X) (s : S)
  : S + R :=
  match xs with
  | [] => inl s
  | x :: r =>
      match body s x with
      | inl s' => for_each body r s'
      | inr v => inr v
      end
  end.

(** The state of [force_questions]: the list [final] and the set [used]. *)
Definition fq_state : Type := list str * list str.

(** Body of the inner loop, lines 141 to 146. *)
Definition template_step (topic : str) (st : fq_state) (t : str)
  : fq_state + list str :=
  let '(final, used) := st in
  let q := format t topic in
  let '(final, used) :=
    if negb (mem q used) then (final ++ [q], q :: used) else (final, used) in
  if 12 <=? length final then inr final else inl (final, used).

(** The generator over arbitrary tables. *)
Definition force_questions_of (topics templates : list str) : list str :=
  match for_each (fun st topic => for_each (template_step topic) templates st)
          topics ([], []) with
  | inr final => final
  | inl (final, _) => firstn 10 final
  end.

(** [force_questions(_)]: the argument is never read. *)
Definition force_questions {A : Type} (_ : A) : list str :=
  force_questions_of topics templates.

(** ** Keyword summarizer *)

(** Body of the outer loop of [extract_keywords]: the words of one
    question, stop words left out, appended to [words]. *)
Definition keyword_step (words : list str) (q : str) : list str :=
  fold_left (fun words w => if negb (mem w STOP_WORDS) then words ++ [w] else words)
            (findall_words (lower q)) words.

(** [Counter]: a dict from word to count, in order of first insertion. *)
Fixpoint counter_add (w : str) (c : list (str * nat)) : list (str * nat) :=
  match c with
  | [] => [(w, 1)]
  | (k, n) :: r =>
      if str_eqb k w then (k, S n) :: r else (k, n) :: counter_add w r
  end.

Definition Counter (words : list str) : list (str * nat) :=
  fold_left (fun c w => counter_add w c) words [].

(** [sorted(items, key=itemgetter(1), reverse=True)]: stable, so entries
    of equal count keep their order. *)
Fixpoint insert_desc (x : str * nat) (l : list (str * nat)) : list (str * nat) :=
  match l with
  | [] => [x]
  | y :: r => if snd x <? snd y then y :: insert_desc x r else x :: l
  end.

Fixpoint sorted_desc (l : list (str * nat)) : list (str * nat) :=
  match l with
  | [] => []
  | x :: r => insert_desc x (sorted_desc r)
  end.

(** [c.most_common(n)], which is [heapq.nlargest(n, c.items(), key=count)],
    that is the first [n] entries of the stable descending sort. *)
Definition most_common (n : nat) (c : list (str * nat)) : list (str * nat) :=
  firstn n (sorted_desc c).

Definition extract_keywords (questions : list str) : list (str * nat) :=
  let words := fold_left keyword_step questions [] in
  most_common 10 (Counter words).

(** ** Exceptions and the external world *)

(** The exceptions the pipeline can meet; all are subclasses of
    [Exception]. *)
Inductive exn : Type :=
| ConnectionError
| RequestTimeout
| JSONDecodeError
| IndexError
| KeyError
| TypeError
| DocumentReadError (path : str).

Definition result (A : Type) : Type := (exn + A)%type.

Definition ret {A : Type} (a : A) : result A := inr a.
Definition raise {A : Type} (e : exn) : result A := inl e.
Definition bind {A B : Type} (m : result A) (k : A -> result B) : result B :=
  match m with
  | inl e => inl e
  | inr a => k a
  end.

Notation "x <- m ;; k" := (bind m (fun x => k))
  (at level 61, m at next level, right associativity).

#[local] Set Warnings "-register-all".

(** A decoded JSON document, as [r.json()] returns it.  A dict is the
    list of its items; a number is kept as an integer, the program never
    looks inside one. *)
Inductive json : Type :=
| JNull
| JBool (b : bool)
| JNum (n : Z)
| JStr (s : str)
| JList (l : list json)
| JDict (d : list (str * json)).

(** What [requests.post(...)] followed by [r.json()] does: one of the two
    raises, or a decoded document comes back. *)
Inductive reply : Type :=
| Raises (e : exn)
| Body (data : json).

(** [l[0]] *)
Definition first_item (l : list json) : result json :=
  match l with
  | [] => raise IndexError
  | x :: _ => ret x
  end.

Definition json_is_str (key : str) (x : json) : bool :=
  match x with
  | JStr s => str_eqb s key
  | _ => false
  end.

Fixpoint dict_get (key : str) (d : list (str * json)) : option json :=
  match d with
  | [] => None
  | (k, v) :: r => if str_eqb k key then Some v else dict_get key r
  end.

(** [key in x] for a string [key]: key test on a dict, element test on a
    list, substring test on a string, [TypeError] otherwise. *)
Definition py_in (key : str) (x : json) : result bool :=
  match x with
  | JDict d => ret (match dict_get key d with Some _ => true | None => false end)
  | JList l => ret (existsb (json_is_str key) l)
  | JStr s => ret (is_substring key s)
  | _ => raise TypeError
  end.

(** [x[key]] for a string [key]. *)
Definition py_getitem (x : json) (key : str) : result json :=
  match x with
  | JDict d =>
      match dict_get key d with
      | Some v => ret v
      | None => raise KeyError
      end
  | _ => raise TypeError
  end.

(** [re.split] accepts a string only. *)
Definition expect_str (x : json) : result str :=
  match x with
  | JStr s => ret s
  | _ => raise TypeError
  end.

(** ** Question refiner *)

Definition GENERATED_TEXT : str := lit "generated_text".

(** The f-string of lines 63 to 75. *)
Definition build_prompt (seed : str) : str :=
  join_nl
    [lit "";
     lit "Generate 5 to 12 SIMPLE, UNIQUE DBMS exam questions.";
     lit "";
     lit "Rules:";
     lit "- One question per line";
     lit "- No repetition";
     lit "- Clear English";
     lit "- Short and syllabus-oriented";
     lit "- End each with '?'";
     lit "";
     lit "Text:";
     seed;
     lit ""].

(** Lines 95 to 97: capitalize, then append [?] unless it is there. *)
Definition finish_question (q : str) : str :=
  let q := capitalize q in
  if negb (endswith [QM] q) then q ++ [QM] else q.

(** Body of the loop of lines 92 to 98. *)
Definition refine_step (final : list str) (q : str) : list str :=
  let q := strip q in
  if (6 <=? length (split_ws q)) && (length (split_ws q) <=? 18) then
    final ++ [finish_question q]
  else final.

(** The list [final] before the duplicates are removed. *)
Definition kept_fragments (raw : str) : list str :=
  fold_left refine_step (re_split raw) [].

(** The body of the [try] block: an exception, or the function's early
    [return] ([Some]), or falling out of the block ([None]). *)
Definition try_rewrite (post : str -> reply) (prompt : str)
  : result (option (list str)) :=
  match post prompt with
  | Raises e => raise e
  | Body data =>
      match data with
      | JList l =>
          d0 <- first_item l ;;
          has <- py_in GENERATED_TEXT d0 ;;
          if has then
            v <- py_getitem d0 GENERATED_TEXT ;;
            raw <- expect_str v ;;
            let final := dict_fromkeys (kept_fragments raw) in
            if MIN_QUESTIONS <=? length final then ret (Some final)
            else ret None
          else ret None
      | _ => ret None
      end
  end.

(** [ai_clean_questions(seed_questions)], with the rewrite service as the
    function [post] from the prompt to what the call does. *)
Definition ai_clean_questions (post : str -> reply) (seed_questions : list str)
  : list str :=
  let seed := join_nl (firstn 10 seed_questions) in
  let prompt := build_prompt seed in
  match try_rewrite post prompt with
  | inr (Some final) => final
  | inr None => force_questions seed
  | inl _ => force_questions seed
  end.

(** ** Text extractor and the [analyze] route *)

(** A PDF as [pdfplumber] shows it: for each page what [extract_text()]
    returns ([None] or a string). *)
Definition pdf : Type := list (option str).

(** The upload folder: [None] for a path that cannot be opened or parsed. *)
Definition storage : Type := str -> option pdf.

Definition extract_text_from_pdf (fs : storage) (path : str) : result str :=
  match fs path with
  | None => raise (DocumentReadError path)
  | Some pages =>
      ret (fold_left
             (fun text t =>
                match t with
                | Some (c :: r) => text ++ (c :: r) ++ [NL]
                | _ => text
                end)
             pages [])
  end.

(** [os.path.join(a, b)] on POSIX. *)
Definition path_join (a b : str) : str :=
  if startswith [47%N] b then b
  else if (length a =? 0) || endswith [47%N] a then a ++ b
  else a ++ 47%N :: b.

Inductive response : Type :=
| Redirect (endpoint : str)
| Render (template : str) (questions : list str) (keywords : list (str * nat)).

(** The loop of lines 185 to 191; an exception of the extractor leaves it. *)
Fixpoint collect_candidates (fs : storage) (selected : list str)
  (candidates : list str) : result (list str) :=
  match selected with
  | [] => ret candidates
  | f :: rest =>
      let path := path_join UPLOAD_FOLDER f in
      text <- extract_text_from_pdf fs path ;;
      collect_candidates fs rest (candidates ++ extract_question_candidates text)
  end.

Definition analyze (fs : storage) (post : str -> reply) (selected : list str)
  : result response :=
  match selected with
  | [] => ret (Redirect (lit "upload"))
  | _ =>
      candidates <- collect_candidates fs selected [] ;;
      let final_questions := ai_clean_questions post candidates in
      let keywords := extract_keywords final_questions in
      ret (Render (lit "result.html") final_questions keywords)
  end.

(** ** Payloads and scenarios *)

(** A payload the refiner can read: a list whose first element is a dict
    that maps [generated_text] to a string.  Anything else is malformed
    (or empty). *)
Definition usable_payload (data : json) : bool :=
  match data with
  | JList (JDict d :: _) =>
      match dict_get GENERATED_TEXT d with
      | Some (JStr _) => true
      | _ => false
      end
  | _ => false
  end.

(** The payload of a well-formed reply carrying [text]. *)
Definition payload_of (text : str) : json :=
  JList [JDict [(GENERATED_TEXT, JStr text)]].

(** The text ["Explain ACID properties in detail\nWhat is normalization\n"]. *)
Definition scenario_D_text : str :=
  lit "Explain ACID properties in detail" ++ NL ::
  lit "What is normalization" ++ [NL].

(** A text of five lines that all pass the filter. *)
Definition refined_text : str :=
  join_nl
    [lit "What are the ACID properties of a transaction?";
     lit "Explain the two phase locking protocol in detail";
     lit "How does normalization reduce redundancy in a database";
     lit "What is the difference between primary and foreign keys?";
     lit "Describe the three levels of data abstraction"].

(** A service that answers every prompt with [refined_text]. *)
Definition post_refined : str -> reply := fun _ => Body (payload_of refined_text).

Definition refined_expected : list str :=
  [lit "What are the acid properties of a transaction?";
   lit "Explain the two phase locking protocol in detail?";
   lit "How does normalization reduce redundancy in a database?";
   lit "What is the difference between primary and foreign keys?";
   lit "Describe the three levels of data abstraction?"].

(** A question whose words are set far apart: 28 characters, 19 once the
    blanks are collapsed. *)
Definition spaced_question : str := lit "What          is a database?".

(** A service that always times out. *)
Definition post_timeout : str -> reply := fun _ => Raises RequestTimeout.

(** A storage area where [good.pdf] has one page and nothing else can be
    opened. *)
Definition storage_one_good : storage :=
  fun path =>
    if str_eqb path (lit "uploads/good.pdf")
    then Some [Some (lit "What is the purpose of normalization in a database?")]
    else None.

(** The reading of a storage area in which an unreadable document is an
    empty one. *)
Definition unreadable_as_empty (fs : storage) : storage :=
  fun path =>
    match fs path with
    | Some pages => Some pages
    | None => Some []
    end.

(** ** Predicates of the statements *)

Definition not_stop_word (w : str) : Prop := mem w STOP_WORDS = false.

(** An entry of the tally whose word satisfies [P] and whose count is
    positive. *)
Definition entry_ok (P : str -> Prop) (e : str * nat) : Prop :=
  P (fst e) /\ 1 <= snd e.

(** [len(q.split())] *)
Definition word_count (q : str) : nat := length (split_ws q).

(** How many times [c] is repeated at the front of [s]. *)
Fixpoint count_leading (c : char) (s : str) : nat :=
  match s with
  | [] => 0
  | x :: t => if char_eqb x c then S (count_leading c t) else 0
  end.

(** The number of question marks the string ends with. *)
Definition trailing_qmarks (q : str) : nat := count_leading QM (rev q).

(** A refined question: 6 to 18 words and exactly one [?] at the end. *)
Definition well_formed_question (q : str) : Prop :=
  6 <= word_count q <= 18 /\ trailing_qmarks q = 1.


(** The last character exists and is not whitespace. *)
Fixpoint ends_nonspace (s : str) : bool :=
  match s with
  | [] => false
  | c :: t =>
      match t with
      | [] => negb (isspace c)
      | _ :: _ => ends_nonspace t
      end
  end.

(** The whitespace code points as ranges. *)
Definition WHITESPACE : list (N * N) :=
  [(9, 13); (28, 32); (133, 133); (160, 160); (5760, 5760); (8192, 8202);
   (8232, 8233); (8239, 8239); (8287, 8287); (12288, 12288)]%N.

(** No code point of [a .. b] lies in one of the ranges [rs]. *)
Definition outside (rs : list (N * N)) (a b : N) : bool :=
  forallb (fun r => N.ltb (snd r) a || N.ltb b (fst r)) rs.

(** No character of [s] lies in one of the ranges [rs]. *)
Definition avoids (rs : list (N * N)) (s : str) : bool :=
  forallb (fun x => negb (in_ranges rs x)) s.

(** What case conversion makes of one character, as far as whitespace
    goes: whitespace stays as it is, and any other character becomes one
    or more characters that are not whitespace. *)
Definition space_piece (c : char) (o : str) : Prop :=
  (isspace c = true -> o = [c]) /\
  (isspace c = false -> o <> [] /\ Forall (fun x => isspace x = false) o).

(** [out] is [s] with every character replaced by such a piece. *)
Inductive pieces : str -> str -> Prop :=
| pieces_nil : pieces [] []
| pieces_cons (c : char) (o s out : str) :
    space_piece c o -> pieces s out -> pieces (c :: s) (o ++ out).

(** No two neighbours of [s] are related by [R]. *)
Fixpoint no_adjacent (R : char -> char -> bool) (s : str) : bool :=
  match s with
  | [] => true
  | a :: t =>
      match t with
      | [] => true
      | b :: _ => negb (R a b) && no_adjacent R t
      end
  end.

(** Two whitespace characters in a row. *)
Definition space_pair (a b : char) : bool := isspace a && isspace b.

(** A lower-case letter followed by an upper-case one. *)
Definition camel_pair (a b : char) : bool := is_lower a && is_upper b.

(** The first character exists and is not whitespace. *)
Definition starts_nonspace (s : str) : bool :=
  match s with
  | [] => false
  | c :: _ => negb (isspace c)
  end.

(** What one line of the text adds to [questions]. *)
Definition line_candidates (line : str) : list str :=
  let line := strip line in
  if length line <? 25 then []
  else if looks_like_question line then [normalize line]
  else [].

(** The test of the scanner on a string that is already trimmed. *)
Definition still_candidate (c : str) : bool :=
  (25 <=? length c) && looks_like_question c.

(** The shape of a normalized candidate: no camel-case boundary, no
    bullet or dash, every whitespace a single space, nothing to trim. *)
Definition normal (c : str) : Prop :=
  no_adjacent camel_pair c = true /\
  Forall (fun x => is_bullet x = false) c /\
  no_adjacent space_pair c = true /\
  Forall (fun x => isspace x = true -> x = SP) c /\
  (c = [] \/ starts_nonspace c = true) /\
  (c = [] \/ ends_nonspace c = true).

(** A candidate as the scanner emits it: it comes from a line of the text
    whose trimmed form has at least 25 characters. *)
Definition from_long_line (text c : str) : Prop :=
  exists line,
    In line (split_nl text) /\
    25 <= length (strip line) /\
    c = normalize (strip line).

(** ** The upload folder and its routes *)

(** The bytes of a file. *)
Definition content : Type := list N.

(** The upload folder: the files in it, name and bytes, in the order in
    which [os.listdir] reports them. *)
Definition folder : Type := list (str * content).

(** [os.listdir(UPLOAD_FOLDER)] *)
Definition listdir (d : folder) : list str := map fst d.

Definition PDF_SUFFIX : str := lit ".pdf".

(** [a < b] on strings: code point by code point. *)
Fixpoint str_ltb (a b : str) : bool :=
  match a, b with
  | [], [] => false
  | [], _ :: _ => true
  | _ :: _, [] => false
  | x :: a', y :: b' =>
      if N.ltb x y then true
      else if N.eqb x y then str_ltb a' b'
      else false
  end.

(** [sorted(l)] on strings, ascending. *)
Fixpoint insert_sorted (x : str) (l : list str) : list str :=
  match l with
  | [] => [x]
  | y :: r => if str_ltb y x then y :: insert_sorted x r else x :: l
  end.

Fixpoint sorted (l : list str) : list str :=
  match l with
  | [] => []
  | x :: r => insert_sorted x (sorted r)
  end.

Definition get_uploaded_files (d : folder) : list str :=
  sorted (filter (endswith PDF_SUFFIX) (listdir d)).

(** What the file system can answer to the routes. *)
Inductive os_error : Type :=
| FileNotFoundError (path : str).

(** The name a path has inside the upload folder, when it lies there. *)
Fixpoint strip_prefix (p s : str) : option str :=
  match p, s with
  | [], _ => Some s
  | _ :: _, [] => None
  | x :: p', y :: s' => if char_eqb x y then strip_prefix p' s' else None
  end.

(** [os.remove(path)] *)
Definition os_remove (d : folder) (path : str) : os_error + folder :=
  match strip_prefix (UPLOAD_FOLDER ++ [47%N]) path with
  | Some name =>
      if mem name (listdir d)
      then inr (filter (fun e => negb (str_eqb (fst e) name)) d)
      else inl (FileNotFoundError path)
  | None => inl (FileNotFoundError path)
  end.

(** What a route of the folder answers. *)
Inductive page : Type :=
| RedirectTo (endpoint : str)
| UploadPage (uploaded_files : list str)
| IndexPage.

(** The loop of [clear], lines 204 and 205. *)
Fixpoint remove_all (d : folder) (names : list str) : os_error + folder :=
  match names with
  | [] => inr d
  | f :: rest =>
      match os_remove d (path_join UPLOAD_FOLDER f) with
      | inl e => inl e
      | inr d' => remove_all d' rest
      end
  end.

Definition clear (d : folder) : os_error + (folder * page) :=
  match remove_all d (get_uploaded_files d) with
  | inl e => inl e
  | inr d' => inr (d', RedirectTo (lit "upload"))
  end.

Definition index : page := IndexPage.

Inductive http_method : Type := GET | POST.

(** The loop of [upload], lines 169 to 173.  An uploaded file [f] is its
    file name and its bytes, and is true when the name is not empty.
    [secure_filename] is werkzeug's and [save] is what [f.save(path)]
    does to the folder; both come from outside the program. *)
Fixpoint save_all (secure_filename : str -> str)
  (save : folder -> str -> content -> os_error + folder)
  (d : folder) (files : list (str * content)) : os_error + folder :=
  match files with
  | [] => inr d
  | (filename, bytes) :: rest =>
      if negb (length filename =? 0) && endswith PDF_SUFFIX filename then
        match save d (path_join UPLOAD_FOLDER (secure_filename filename)) bytes with
        | inl e => inl e
        | inr d' => save_all secure_filename save d' rest
        end
      else save_all secure_filename save d rest
  end.

Definition upload (secure_filename : str -> str)
  (save : folder -> str -> content -> os_error + folder)
  (method : http_method) (files : list (str * content)) (d : folder)
  : os_error + (folder * page) :=
  match method with
  | POST =>
      match save_all secure_filename save d files with
      | inl e => inl e
      | inr d' => inr (d', RedirectTo (lit "upload"))
      end
  | GET => inr (d, UploadPage (get_uploaded_files d))
  end.

(** A folder as a file system keeps it: no name twice, no separator in a
    name. *)
Definition folder_ok (d : folder) : Prop :=
  NoDup (listdir d) /\
  Forall (fun name => contains_char 47%N name = false) (listdir d).

(** Ascending order on strings. *)
Fixpoint ascending (l : list str) : Prop :=
  match l with
  | [] => True
  | x :: r => Forall (fun y => str_ltb y x = false) r /\ ascending r
  end.

(** ** Predicates of the further statements *)

(** The text of a page of a PDF, when it has one. *)
Definition page_text (t : option str) : str :=
  match t with
  | Some (c :: r) => (c :: r) ++ [NL]
  | _ => []
  end.

(** The candidates one selected document gives, when it can be read. *)
Definition document_candidates (fs : storage) (f : str) : list str :=
  match extract_text_from_pdf fs (path_join UPLOAD_FOLDER f) with
  | inr text => extract_question_candidates text
  | inl _ => []
  end.

(** The questions of a topic and template table, in loop order. *)
Definition cross_product (tps tms : list str) : list str :=
  flat_map (fun topic => map (fun t => format t topic) tms) tps.

(** The words [extract_keywords] tallies. *)
Definition keyword_words (questions : list str) : list str :=
  fold_left keyword_step questions [].

(** How often [w] is in [l]. *)
Fixpoint occurrences (w : str) (l : list str) : nat :=
  match l with
  | [] => 0
  | x :: r => (if str_eqb x w then 1 else 0) + occurrences w r
  end.

(** Counts that never go up along the list. *)
Fixpoint descending (l : list (str * nat)) : Prop :=
  match l with
  | [] => True
  | x :: r => Forall (fun y => snd y <= snd x) r /\ descending r
  end.

(** The body of the inner loop of [force_questions] as a function of the
    formatted question. *)
Definition question_step (st : fq_state) (q : str) : fq_state + list str :=
  let '(final, used) := st in
  let '(final, used) :=
    if negb (mem q used) then (final ++ [q], q :: used) else (final, used) in
  if 12 <=? length final then inr final else inl (final, used).

(** The first character exists and is neither whitespace nor a letter of
    [[a-z]]. *)
Definition starts_capitalized (s : str) : bool :=
  match s with
  | [] => false
  | c :: _ => negb (isspace c) && negb (is_lower c)
  end.

(** A question on one line: a body without question mark and without
    newline that starts capitalized, then one question mark. *)
Definition one_line_question (q : str) : Prop :=
  exists body,
    q = body ++ [QM] /\
    Forall (fun c => c <> QM /\ c <> NL) body /\
    starts_capitalized body = true.

(** [c[w]] on a [Counter]: the count of [w], 0 when it is absent. *)
Fixpoint tally_of (w : str) (c : list (str * nat)) : nat :=
  match c with
  | [] => 0
  | (k, n) :: r => if str_eqb k w then n else tally_of w r
  end.

(** A keyword as the regular expression finds it in lower-cased text: at
    least four characters, all of [[a-z]]. *)
Definition keyword_shape (w : str) : Prop :=
  4 <= length w /\ Forall (fun c => is_lower c = true) w.

(** A folder with one PDF and one text file. *)
Definition folder_two : folder :=
  [(lit "a.pdf", [37%N; 80%N]); (lit "notes.txt", [104%N])].

(** A [save] that puts the bytes under the last component of the path,
    in place of an entry of that name. *)
Definition save_by_name (d : folder) (path : str) (bytes : content)
  : os_error + folder :=
  match strip_prefix (UPLOAD_FOLDER ++ [47%N]) path with
  | Some name =>
      inr (filter (fun e => negb (str_eqb (fst e) name)) d ++ [(name, bytes)])
  | None => inl (FileNotFoundError path)
  end.

(** ** Checks of the case tables, entry by entry *)

(** The entry keeps whitespace apart: its key is no whitespace and its
    value is one or more characters that are no whitespace. *)
Definition space_entry (k : char) (s : str) : bool :=
  negb (in_ranges WHITESPACE k) && negb (length s =? 0) && avoids WHITESPACE s.

Definition space_range (r : case_range) : bool :=
  let '(lo, hi, step, to) := r in
  outside WHITESPACE lo hi && outside WHITESPACE to (to + (hi - lo)).

(** The entry maps into the complement of the ranges [rs]. *)
Definition free_entry (rs : list (N * N)) (k : char) (s : str) : bool :=
  avoids rs s.

Definition free_range (rs : list (N * N)) (r : case_range) : bool :=
  let '(lo, hi, step, to) := r in
  outside rs to (to + (hi - lo)).

(** The value of the entry does not start with a letter of [[a-z]]. *)
Definition head_entry (k : char) (s : str) : bool :=
  match s with
  | [] => false
  | x :: _ => negb (in_ranges [(97, 122)%N] x)
  end.







(** A template that [format] reads as [str.format] does: one replacement
    field [{}] and no other brace. *)
Definition is_brace (c : char) : bool := N.eqb c 123 || N.eqb c 125.

Fixpoint simple_template (t : str) : bool :=
  match t with
  | [] => false
  | a :: r =>
      if N.eqb a 123 then
        match r with
        | b :: r' => N.eqb b 125 && forallb (fun c => negb (is_brace c)) r'
        | [] => false
        end
      else negb (N.eqb a 125) && simple_template r
  end.

(** * Properties *)

(** ** Strings and lists *)

Lemma str_eqb_eq (a b : str) : str_eqb a b = true <-> a = b.
Proof.
  revert b; induction a as [|x a IH]; intros [|y b]; simpl;
    try (split; [discriminate | congruence]); try tauto.
  unfold char_eqb. rewrite andb_true_iff, N.eqb_eq, IH.
  split; [intros [-> ->]; reflexivity | intros H; inversion H; auto].
Qed.

Lemma str_eqb_refl (a : str) : str_eqb a a = true.
Proof. now apply str_eqb_eq. Qed.

Lemma mem_In (x : str) (l : list str) : mem x l = true <-> In x l.
Proof.
  unfold mem. rewrite existsb_exists. split.
  - intros [y [Hy E]]. apply str_eqb_eq in E. now subst.
  - intros H. exists x. split; [assumption | apply str_eqb_refl].
Qed.

Lemma mem_false (x : str) (l : list str) : mem x l = false <-> ~ In x l.
Proof.
  rewrite <- mem_In. destruct (mem x l); split; congruence.
Qed.

(** A loop that only appends is a [flat_map]. *)
Lemma fold_left_append {X Y : Type} (f : X -> list Y) (l : list X) (acc : list Y) :
  fold_left (fun a x => a ++ f x) l acc = acc ++ flat_map f l.
Proof.
  revert acc; induction l as [|x l IH]; intros acc; simpl.
  - now rewrite app_nil_r.
  - rewrite IH. now rewrite app_assoc.
Qed.

Lemma In_firstn {X : Type} (n : nat) (l : list X) (x : X) :
  In x (firstn n l) -> In x l.
Proof.
  revert l; induction n as [|n IH]; intros [|y l]; simpl; try tauto.
  intros [H | H]; [now left | right; now apply IH].
Qed.

(** ** The library functions on examples *)

Example split_nl_trailing : split_nl (lit "a" ++ [NL]) = [lit "a"; []].
Proof. reflexivity. Qed.

Example join_nl_nil : join_nl [] = [].
Proof. reflexivity. Qed.

Example split_ws_example :
  split_ws (lit "  Explain ACID  properties in detail ")
  = map lit ["Explain"; "ACID"; "properties"; "in"; "detail"]%string.
Proof. vm_compute. reflexivity. Qed.

Example strip_example : strip (SP :: NL :: lit "a b" ++ [9%N; SP]) = lit "a b".
Proof. vm_compute. reflexivity. Qed.

Example capitalize_example : capitalize (lit "aCID tEST") = lit "Acid test".
Proof. vm_compute. reflexivity. Qed.

Example sub_camel_example :
  sub_camel (lit "aBcDe fGH aBCd") = lit "a Bc De f GH a BCd".
Proof. vm_compute. reflexivity. Qed.

Example sub_spaces_example :
  sub_spaces (lit "a " ++ [9%N; NL] ++ lit "b  c ") = lit "a b c ".
Proof. vm_compute. reflexivity. Qed.

(** A question mark takes the whitespace after it, newlines included. *)
Example re_split_example_1 :
  re_split (lit "a?" ++ [NL; NL] ++ lit "b") = [lit "a"; lit "b"].
Proof. vm_compute. reflexivity. Qed.

Example re_split_example_2 :
  re_split (lit "a" ++ [NL; NL] ++ lit "b?") = [lit "a"; []; lit "b"; []].
Proof. vm_compute. reflexivity. Qed.

Example re_split_example_3 : re_split (lit "a? ?b") = [lit "a"; []; lit "b"].
Proof. vm_compute. reflexivity. Qed.

Example findall_words_example :
  findall_words (lit "abc defg hijklmnop q1rstu vwxyz?")
  = map lit ["defg"; "hijklmnop"; "rstu"; "vwxyz"]%string.
Proof. vm_compute. reflexivity. Qed.

Example format_example : format (lit "Explain {}.") (lit "sql") = lit "Explain sql.".
Proof. vm_compute. reflexivity. Qed.

(** Entries of equal count come out in the order of first insertion. *)
Example most_common_ties :
  most_common 3 (Counter (map lit ["b"; "a"; "c"; "a"; "b"; "d"]%string))
  = [(lit "b", 2); (lit "a", 2); (lit "c", 1)].
Proof. vm_compute. reflexivity. Qed.

Example path_join_example :
  path_join UPLOAD_FOLDER (lit "notes.pdf") = lit "uploads/notes.pdf".
Proof. vm_compute. reflexivity. Qed.

(** ** [dict.fromkeys] *)

Lemma fromkeys_from_spec (l acc : list str) :
  NoDup acc ->
  NoDup (fold_left add_key l acc) /\
  (forall x, In x (fold_left add_key l acc) <-> In x acc \/ In x l).
Proof.
  revert acc; induction l as [|k l IH]; intros acc Hnd; simpl.
  - split; [assumption | intros x; tauto].
  - unfold add_key at 2 4. destruct (mem k acc) eqn:E.
    + destruct (IH acc Hnd) as [H1 H2]. split; [assumption|].
      intros x. rewrite H2. apply mem_In in E.
      split; [tauto | intros [H | [<- | H]]; auto].
    + apply mem_false in E.
      assert (Hnd' : NoDup (acc ++ [k])).
      { apply NoDup_app; [assumption | repeat constructor; intros [] | ].
        intros x Hx [<- | []]. contradiction. }
      destruct (IH _ Hnd') as [H1 H2]. split; [assumption|].
      intros x. rewrite H2, in_app_iff. simpl. tauto.
Qed.

Lemma dict_fromkeys_NoDup (l : list str) : NoDup (dict_fromkeys l).
Proof. apply (fromkeys_from_spec l (acc := [])). constructor. Qed.

Lemma dict_fromkeys_In (l : list str) (x : str) :
  In x (dict_fromkeys l) <-> In x l.
Proof.
  unfold dict_fromkeys.
  destruct (@fromkeys_from_spec l [] (NoDup_nil _)) as [_ H].
  rewrite H. simpl. tauto.
Qed.

Lemma fromkeys_from_NoDup (l acc : list str) :
  NoDup (acc ++ l) -> fold_left add_key l acc = acc ++ l.
Proof.
  revert acc; induction l as [|k l IH]; intros acc Hnd; simpl.
  - now rewrite app_nil_r.
  - unfold add_key at 2. destruct (mem k acc) eqn:E.
    + apply mem_In in E. apply NoDup_remove_2 in Hnd.
      exfalso. apply Hnd. apply in_or_app. now left.
    + rewrite IH; rewrite <- app_assoc; simpl; auto.
Qed.

Lemma dict_fromkeys_id (l : list str) : NoDup l -> dict_fromkeys l = l.
Proof. intros H. apply (fromkeys_from_NoDup l []). exact H. Qed.

(** ** Character classes *)

Lemma in_range_iff (lo hi c : N) : in_range lo hi c = true <-> (lo <= c <= hi)%N.
Proof. unfold in_range. now rewrite andb_true_iff, !N.leb_le. Qed.

Lemma isspace_iff (c : char) :
  isspace c = true <->
  ((9 <= c <= 13) \/ (28 <= c <= 32) \/ c = 133 \/ c = 160 \/ c = 5760 \/
   (8192 <= c <= 8202) \/ c = 8232 \/ c = 8233 \/ c = 8239 \/ c = 8287 \/
   c = 12288)%N.
Proof.
  unfold isspace.
  rewrite !orb_true_iff, !in_range_iff, !N.eqb_eq. tauto.
Qed.

Lemma is_upper_iff (c : char) : is_upper c = true <-> (65 <= c <= 90)%N.
Proof. apply in_range_iff. Qed.

Lemma is_lower_iff (c : char) : is_lower c = true <-> (97 <= c <= 122)%N.
Proof. apply in_range_iff. Qed.

Lemma is_bullet_iff (c : char) :
  is_bullet c = true <-> (c = 8226 \/ c = 45 \/ c = 8211 \/ c = 8212)%N.
Proof. unfold is_bullet. rewrite !orb_true_iff, !N.eqb_eq. tauto. Qed.

Lemma bool_eq_iff (a b : bool) : (a = true <-> b = true) -> a = b.
Proof.
  destruct a, b; intros [H1 H2]; try reflexivity.
  - symmetry. now apply H1.
  - now apply H2.
Qed.

Lemma not_true_iff (b : bool) : b = false <-> ~ b = true.
Proof. destruct b; split; congruence. Qed.

Lemma isspace_SP : isspace SP = true.
Proof. reflexivity. Qed.

(** ** Case tables *)

Unset Implicit Arguments.

Lemma range_hit_Some (lo hi step to c d : N) :
  range_hit (lo, hi, step, to) c = Some d ->
  (lo <= c <= hi)%N /\ d = (to + (c - lo))%N.
Proof.
  unfold range_hit.
  destruct (in_range lo hi c) eqn:E; [|discriminate].
  destruct (N.eqb (N.modulo (c - lo) step) 0); [|discriminate].
  cbn [andb]. intros H. injection H as <-.
  apply in_range_iff in E. now split.
Qed.

Lemma in_ranges_false (rs : list (N * N)) (x : N) :
  in_ranges rs x = false <->
  Forall (fun r => ~ (fst r <= x <= snd r)%N) rs.
Proof.
  unfold in_ranges. induction rs as [|r rs IH]; simpl.
  - split; [constructor | reflexivity].
  - rewrite orb_false_iff, IH, not_true_iff, in_range_iff. split.
    + intros [H1 H2]. now constructor.
    + intros H. inversion H; subst. now split.
Qed.

Lemma outside_spec (rs : list (N * N)) (a b x : N) :
  outside rs a b = true -> (a <= x <= b)%N -> in_ranges rs x = false.
Proof.
  intros H Hx. apply in_ranges_false. unfold outside in H.
  rewrite forallb_forall in H. apply Forall_forall. intros r Hr.
  specialize (H r Hr). apply orb_true_iff in H.
  rewrite !N.ltb_lt in H. lia.
Qed.

Lemma avoids_spec (rs : list (N * N)) (s : str) :
  avoids rs s = true <-> Forall (fun x => in_ranges rs x = false) s.
Proof.
  unfold avoids. rewrite forallb_forall, Forall_forall.
  split; intros H x Hx; specialize (H x Hx);
    [now apply negb_true_iff in H | now apply negb_true_iff].
Qed.

Lemma isspace_ranges (c : char) : isspace c = in_ranges WHITESPACE c.
Proof.
  apply bool_eq_iff. rewrite isspace_iff. unfold in_ranges, WHITESPACE.
  cbn [existsb fst snd]. rewrite !orb_true_iff, !in_range_iff. lia.
Qed.

Lemma is_upper_ranges (c : char) : is_upper c = in_ranges [(65, 90)%N] c.
Proof. unfold in_ranges, is_upper. simpl. now rewrite orb_false_r. Qed.

Lemma is_lower_ranges (c : char) : is_lower c = in_ranges [(97, 122)%N] c.
Proof. unfold in_ranges, is_lower. simpl. now rewrite orb_false_r. Qed.

Lemma QM_ranges (c : char) : c <> QM <-> in_ranges [(63, 63)%N] c = false.
Proof.
  unfold in_ranges, QM. simpl. rewrite orb_false_r, not_true_iff, in_range_iff.
  lia.
Qed.

Lemma lookup_special_Some (t : list (char * str)) (c : char) (s : str) :
  lookup_special t c = Some s -> In (c, s) t.
Proof.
  induction t as [|[k v] t IH]; simpl; [discriminate|].
  destruct (N.eqb_spec k c) as [->|_].
  - intros H. injection H as <-. now left.
  - intros H. right. now apply IH.
Qed.

Lemma lookup_range_Some (t : list case_range) (c d : char) :
  lookup_range t c = Some d -> exists r, In r t /\ range_hit r c = Some d.
Proof.
  induction t as [|r t IH]; cbn [lookup_range]; [discriminate|].
  destruct (range_hit r c) as [d'|] eqn:E.
  - intros H. injection H as <-. exists r. split; [now left | assumption].
  - intros H. destruct (IH H) as [r' [Hr' Hd]]. exists r'. split; [now right | assumption].
Qed.

Section CaseMap.

(** A property [Q] of a character and what a case table makes of it,
    checked entry by entry: [qs] on the special entries, [qr] on the
    ranges. *)
Variable special : list (char * str).
Variable ranges : list case_range.
Variable Q : char -> str -> Prop.
Variable qs : char -> str -> bool.
Variable qr : case_range -> bool.
Hypothesis qs_sound : forall k s, qs k s = true -> Q k s.
Hypothesis qr_sound :
  forall r c d, qr r = true -> range_hit r c = Some d -> Q c [d].
Hypothesis special_checked :
  forallb (fun ks => qs (fst ks) (snd ks)) special = true.
Hypothesis ranges_checked : forallb qr ranges = true.

Lemma case_map_checked (c : char) :
  (lookup_range ranges c = None -> Q c [c]) -> Q c (case_map special ranges c).
Proof.
  intros Hid. unfold case_map.
  destruct (lookup_special special c) as [s|] eqn:Es.
  - apply lookup_special_Some in Es.
    rewrite forallb_forall in special_checked.
    exact (qs_sound c s (special_checked (c, s) Es)).
  - destruct (lookup_range ranges c) as [d|] eqn:Er.
    + apply lookup_range_Some in Er. destruct Er as [r [Hr Hd]].
      rewrite forallb_forall in ranges_checked.
      exact (qr_sound r c d (ranges_checked r Hr) Hd).
    + now apply Hid.
Qed.

End CaseMap.

(** *** Whitespace *)

Lemma space_entry_sound (k : char) (s : str) :
  space_entry k s = true -> space_piece k s.
Proof.
  unfold space_entry. rewrite !andb_true_iff, !negb_true_iff, avoids_spec.
  intros [[Hk Hl] Hs]. rewrite <- isspace_ranges in Hk. split; [congruence|].
  intros _. split.
  - intros ->. discriminate Hl.
  - eapply Forall_impl; [|exact Hs]. intros x Hx. now rewrite isspace_ranges.
Qed.

Lemma space_range_sound (r : case_range) (c d : char) :
  space_range r = true -> range_hit r c = Some d -> space_piece c [d].
Proof.
  destruct r as [[[lo hi] step] to]. unfold space_range.
  rewrite andb_true_iff. intros [H1 H2] Hd.
  apply range_hit_Some in Hd. destruct Hd as [Hc ->].
  assert (Ec : isspace c = false)
    by (rewrite isspace_ranges; apply (outside_spec _ _ _ _ H1); lia).
  assert (Ed : isspace (to + (c - lo))%N = false)
    by (rewrite isspace_ranges; apply (outside_spec _ _ _ _ H2); lia).
  split; [congruence|]. intros _. split; [discriminate|].
  constructor; [assumption | constructor].
Qed.

Lemma space_piece_same (c : char) : space_piece c [c].
Proof.
  split; [reflexivity|]. intros H. split; [discriminate|].
  constructor; [assumption | constructor].
Qed.

Lemma to_lower_full_space (c : char) : space_piece c (to_lower_full c).
Proof.
  apply (case_map_checked LOWER_SPECIAL LOWER_RANGES space_piece
           space_entry space_range space_entry_sound space_range_sound).
  - vm_compute. reflexivity.
  - vm_compute. reflexivity.
  - intros _. apply space_piece_same.
Qed.

Lemma to_title_full_space (c : char) : space_piece c (to_title_full c).
Proof.
  apply (case_map_checked TITLE_SPECIAL TITLE_RANGES space_piece
           space_entry space_range space_entry_sound space_range_sound).
  - vm_compute. reflexivity.
  - vm_compute. reflexivity.
  - intros _. apply space_piece_same.
Qed.

(** *** Characters that a table never produces *)

Lemma free_entry_sound (rs : list (N * N)) (k : char) (s : str) :
  free_entry rs k s = true ->
  in_ranges rs k = false -> Forall (fun x => in_ranges rs x = false) s.
Proof. intros H _. now apply avoids_spec. Qed.

Lemma free_range_sound (rs : list (N * N)) (r : case_range) (c d : char) :
  free_range rs r = true -> range_hit r c = Some d ->
  in_ranges rs c = false -> Forall (fun x => in_ranges rs x = false) [d].
Proof.
  destruct r as [[[lo hi] step] to]. unfold free_range. intros H Hd _.
  apply range_hit_Some in Hd. destruct Hd as [Hc ->].
  constructor; [|constructor]. apply (outside_spec _ _ _ _ H). lia.
Qed.

Lemma case_map_free (rs : list (N * N)) (special : list (char * str))
  (ranges : list case_range) :
  forallb (fun ks => free_entry rs (fst ks) (snd ks)) special = true ->
  forallb (free_range rs) ranges = true ->
  forall c, in_ranges rs c = false ->
            Forall (fun x => in_ranges rs x = false) (case_map special ranges c).
Proof.
  intros Hs Hr c.
  apply (case_map_checked special ranges
           (fun c o => in_ranges rs c = false ->
                       Forall (fun x => in_ranges rs x = false) o)
           (free_entry rs) (free_range rs)
           (free_entry_sound rs) (free_range_sound rs) Hs Hr).
  intros _ Hc. constructor; [assumption | constructor].
Qed.

Lemma to_lower_full_QM (c : char) :
  c <> QM -> Forall (fun x => x <> QM) (to_lower_full c).
Proof.
  intros H. apply QM_ranges in H.
  eapply Forall_impl; [intros x Hx; apply QM_ranges; exact Hx|].
  apply case_map_free; [vm_compute; reflexivity | vm_compute; reflexivity | exact H].
Qed.

Lemma to_title_full_QM (c : char) :
  c <> QM -> Forall (fun x => x <> QM) (to_title_full c).
Proof.
  intros H. apply QM_ranges in H.
  eapply Forall_impl; [intros x Hx; apply QM_ranges; exact Hx|].
  apply case_map_free; [vm_compute; reflexivity | vm_compute; reflexivity | exact H].
Qed.

(** *** Basic Latin *)

Lemma lookup_range_cons (r : case_range) (t : list case_range) (c : char) :
  lookup_range (r :: t) c =
  match range_hit r c with
  | Some d => Some d
  | None => lookup_range t c
  end.
Proof. reflexivity. Qed.

Lemma LOWER_RANGES_head : LOWER_RANGES = (65, 90, 1, 97)%N :: tl LOWER_RANGES.
Proof. reflexivity. Qed.

Lemma TITLE_RANGES_head : TITLE_RANGES = (97, 122, 1, 65)%N :: tl TITLE_RANGES.
Proof. reflexivity. Qed.

Lemma range_hit_step_1 (lo hi to c : N) :
  (lo <= c <= hi)%N -> range_hit (lo, hi, 1, to)%N c = Some (to + (c - lo))%N.
Proof.
  intros H. unfold range_hit.
  apply in_range_iff in H. rewrite H, N.mod_1_r. reflexivity.
Qed.

(** A capital letter of [[A-Z]] becomes the small one. *)
Lemma to_lower_full_upper (c : char) :
  is_upper c = true -> to_lower_full c = [(c + 32)%N].
Proof.
  intros H. apply is_upper_iff in H. unfold to_lower_full, case_map.
  assert (Es : lookup_special LOWER_SPECIAL c = None).
  { unfold LOWER_SPECIAL. cbn [lookup_special].
    destruct (N.eqb_spec 304 c); [lia | reflexivity]. }
  rewrite Es, LOWER_RANGES_head, lookup_range_cons, range_hit_step_1 by lia.
  f_equal. lia.
Qed.

Lemma lookup_lower_None (c : char) :
  lookup_range LOWER_RANGES c = None -> is_upper c = false.
Proof.
  rewrite LOWER_RANGES_head, lookup_range_cons. intros H.
  apply not_true_iff. intros E. apply is_upper_iff in E.
  rewrite range_hit_step_1 in H by lia. discriminate H.
Qed.

Lemma lookup_title_None (c : char) :
  lookup_range TITLE_RANGES c = None -> is_lower c = false.
Proof.
  rewrite TITLE_RANGES_head, lookup_range_cons. intros H.
  apply not_true_iff. intros E. apply is_lower_iff in E.
  rewrite range_hit_step_1 in H by lia. discriminate H.
Qed.

(** Lower-casing never gives a letter of [[A-Z]]. *)
Lemma to_lower_full_not_upper (c : char) :
  Forall (fun x => is_upper x = false) (to_lower_full c).
Proof.
  eapply Forall_impl; [intros x Hx; rewrite is_upper_ranges; exact Hx|].
  apply (case_map_checked LOWER_SPECIAL LOWER_RANGES
           (fun _ o => Forall (fun x => in_ranges [(65, 90)%N] x = false) o)
           (free_entry [(65, 90)%N]) (free_range [(65, 90)%N])).
  - intros k s H. now apply avoids_spec.
  - intros [[[lo hi] step] to] c0 d H Hd. unfold free_range in H.
    apply range_hit_Some in Hd. destruct Hd as [Hc ->].
    constructor; [|constructor]. apply (outside_spec _ _ _ _ H). lia.
  - vm_compute. reflexivity.
  - vm_compute. reflexivity.
  - intros H. apply lookup_lower_None in H. rewrite is_upper_ranges in H.
    constructor; [assumption | constructor].
Qed.

(** *** Title case *)

(** Title-casing never starts with a letter of [[a-z]]. *)
Lemma to_title_full_head (c : char) : head_entry c (to_title_full c) = true.
Proof.
  apply (case_map_checked TITLE_SPECIAL TITLE_RANGES
           (fun c o => head_entry c o = true)
           head_entry (free_range [(97, 122)%N])).
  - auto.
  - intros [[[lo hi] step] to] c0 d H Hd. unfold free_range in H.
    apply range_hit_Some in Hd. destruct Hd as [Hc ->].
    unfold head_entry. apply negb_true_iff.
    apply (outside_spec _ _ _ _ H). lia.
  - vm_compute. reflexivity.
  - vm_compute. reflexivity.
  - intros H. apply lookup_title_None in H. unfold head_entry.
    now rewrite <- is_lower_ranges, H.
Qed.



(** *** Lower case in context *)

Lemma lower_at_cases (before : str) (c : char) (after : str) :
  lower_at before c after = to_lower_full c \/
  (c = CAPITAL_SIGMA /\
   (lower_at before c after = [962%N] \/ lower_at before c after = [963%N])).
Proof.
  unfold lower_at. destruct (N.eqb_spec c CAPITAL_SIGMA) as [->|_]; [|now left].
  right. split; [reflexivity|]. destruct (final_sigma before after); auto.
Qed.

Lemma lower_at_space (before : str) (c : char) (after : str) :
  space_piece c (lower_at before c after).
Proof.
  destruct (lower_at_cases before c after) as [-> | [-> [-> | ->]]].
  - apply to_lower_full_space.
  - split; [discriminate|]. intros _. split; [discriminate | now repeat constructor].
  - split; [discriminate|]. intros _. split; [discriminate | now repeat constructor].
Qed.

Lemma lower_at_QM (before : str) (c : char) (after : str) :
  c <> QM -> Forall (fun x => x <> QM) (lower_at before c after).
Proof.
  intros H. destruct (lower_at_cases before c after) as [-> | [_ [-> | ->]]].
  - now apply to_lower_full_QM.
  - constructor; [discriminate | constructor].
  - constructor; [discriminate | constructor].
Qed.

Lemma lower_at_not_upper (before : str) (c : char) (after : str) :
  Forall (fun x => is_upper x = false) (lower_at before c after).
Proof.
  destruct (lower_at_cases before c after) as [-> | [_ [-> | ->]]].
  - apply to_lower_full_not_upper.
  - now repeat constructor.
  - now repeat constructor.
Qed.

Lemma lower_from_Forall (P : char -> Prop) (Q : char -> Prop) :
  (forall before c after, P c -> Forall Q (lower_at before c after)) ->
  forall s before, Forall P s -> Forall Q (lower_from before s).
Proof.
  intros H s. induction s as [|c t IH]; intros before Hs; cbn [lower_from].
  - constructor.
  - inversion Hs; subst. apply Forall_app. split; [now apply H | now apply IH].
Qed.

Lemma lower_from_not_upper (before s : str) :
  Forall (fun x => is_upper x = false) (lower_from before s).
Proof.
  apply (lower_from_Forall (fun _ => True)).
  - intros b c a _. apply lower_at_not_upper.
  - apply Forall_forall. intros x _. exact I.
Qed.

Lemma lower_from_pieces (s before : str) : pieces s (lower_from before s).
Proof.
  revert before. induction s as [|c t IH]; intros before; cbn [lower_from].
  - constructor.
  - constructor; [apply lower_at_space | apply IH].
Qed.

Lemma capitalize_pieces (q : str) : pieces q (capitalize q).
Proof.
  destruct q as [|c t]; cbn [capitalize]; [constructor|].
  constructor; [apply to_title_full_space | apply lower_from_pieces].
Qed.

(** A piece that is not whitespace is neither newline nor, when the
    character is none, question mark. *)
Lemma space_piece_NL (c : char) (o : str) :
  space_piece c o -> c <> NL -> Forall (fun x => x <> NL) o.
Proof.
  intros [H1 H2] Hc. destruct (isspace c) eqn:E.
  - rewrite (H1 eq_refl). constructor; [assumption | constructor].
  - destruct (H2 eq_refl) as [_ H]. eapply Forall_impl; [|exact H].
    intros x Hx ->. discriminate Hx.
Qed.

Set Implicit Arguments.

(** ** Neighbours *)

Lemma no_adjacent_cons (R : char -> char -> bool) (a : char) (s : str) :
  no_adjacent R (a :: s) =
  match s with
  | [] => true
  | b :: _ => negb (R a b) && no_adjacent R s
  end.
Proof. reflexivity. Qed.

Lemma no_adjacent_tail (R : char -> char -> bool) (a : char) (s : str) :
  no_adjacent R (a :: s) = true -> no_adjacent R s = true.
Proof.
  rewrite no_adjacent_cons. destruct s; [reflexivity|].
  intros H. now apply andb_true_iff in H.
Qed.

Lemma no_adjacent_suffix (R : char -> char -> bool) (p s : str) :
  no_adjacent R (p ++ s) = true -> no_adjacent R s = true.
Proof.
  induction p as [|a p IH]; simpl app; [auto|].
  intros H. apply IH. now apply no_adjacent_tail in H.
Qed.

Lemma no_adjacent_prefix (R : char -> char -> bool) (p s : str) :
  no_adjacent R (p ++ s) = true -> no_adjacent R p = true.
Proof.
  induction p as [|a p IH]; [reflexivity|].
  simpl app. rewrite !no_adjacent_cons.
  destruct p as [|b p]; [reflexivity|].
  simpl app in *. intros H. apply andb_true_iff in H. destruct H as [H1 H2].
  rewrite H1. simpl. now apply IH.
Qed.

(** ** Trimming *)

Lemma lstrip_head (s : str) :
  lstrip s = [] \/ exists a r, lstrip s = a :: r /\ isspace a = false.
Proof.
  induction s as [|c s IH]; simpl; [now left|].
  destruct (isspace c) eqn:E; [assumption|].
  right. now exists c, s.
Qed.

Lemma lstrip_suffix (s : str) : exists p, s = p ++ lstrip s.
Proof.
  induction s as [|c s [p IH]]; simpl.
  - now exists [].
  - destruct (isspace c).
    + exists (c :: p). simpl. now f_equal.
    + now exists [].
Qed.

Lemma lstrip_Forall (P : char -> Prop) (s : str) :
  Forall P s -> Forall P (lstrip s).
Proof.
  intros H. destruct (lstrip_suffix s) as [p E]. rewrite E in H.
  now apply Forall_app in H.
Qed.

Lemma strip_Forall (P : char -> Prop) (s : str) :
  Forall P s -> Forall P (strip s).
Proof.
  intros H. unfold strip, rstrip.
  apply Forall_rev, lstrip_Forall, Forall_rev, lstrip_Forall, H.
Qed.

Lemma ends_nonspace_snoc (s : str) (a : char) :
  ends_nonspace (s ++ [a]) = negb (isspace a).
Proof.
  induction s as [|c s IH]; simpl; [reflexivity|].
  destruct (s ++ [a]) eqn:E; [destruct s; discriminate E | exact IH].
Qed.

Lemma strip_ends_nonspace (s : str) :
  strip s = [] \/ ends_nonspace (strip s) = true.
Proof.
  unfold strip, rstrip.
  destruct (lstrip_head (rev (lstrip s))) as [E | [a [r [E Ha]]]]; rewrite E.
  - now left.
  - right. simpl. rewrite ends_nonspace_snoc, Ha. reflexivity.
Qed.

(** ** Trimming keeps a middle part *)

Lemma rstrip_prefix (s : str) : exists q, s = rstrip s ++ q.
Proof.
  unfold rstrip. destruct (lstrip_suffix (rev s)) as [p E].
  exists (rev p). rewrite <- rev_app_distr, <- E. now rewrite rev_involutive.
Qed.

Lemma strip_infix (s : str) : exists p q, s = p ++ strip s ++ q.
Proof.
  destruct (lstrip_suffix s) as [p Ep].
  destruct (rstrip_prefix (lstrip s)) as [q Eq].
  exists p, q. unfold strip. now rewrite <- Eq.
Qed.

Lemma strip_no_adjacent (R : char -> char -> bool) (s : str) :
  no_adjacent R s = true -> no_adjacent R (strip s) = true.
Proof.
  intros H. destruct (strip_infix s) as (p & q & E). rewrite E in H.
  apply no_adjacent_suffix in H. now apply no_adjacent_prefix in H.
Qed.

(** ** Strings with nothing to trim *)

Lemma strip_starts_nonspace (s : str) :
  strip s = [] \/ starts_nonspace (strip s) = true.
Proof.
  unfold strip. destruct (rstrip_prefix (lstrip s)) as [q E].
  destruct (rstrip (lstrip s)) as [|a r]; [now left|]. right.
  destruct (lstrip_head s) as [E0 | (a' & r' & E1 & Ha)].
  - rewrite E0 in E. discriminate E.
  - rewrite E1 in E. injection E as <- _. simpl. now rewrite Ha.
Qed.

Lemma lstrip_fixed (s : str) :
  s = [] \/ starts_nonspace s = true -> lstrip s = s.
Proof.
  intros [-> | H]; [reflexivity|].
  destruct s as [|c t]; [discriminate H|]. simpl in *.
  now destruct (isspace c).
Qed.

Lemma ends_nonspace_last (s : str) :
  ends_nonspace s = true -> exists p a, s = p ++ [a] /\ isspace a = false.
Proof.
  intros H. destruct (rev s) as [|a r] eqn:E.
  - apply (f_equal (@rev char)) in E. rewrite rev_involutive in E.
    subst. discriminate H.
  - apply (f_equal (@rev char)) in E. rewrite rev_involutive in E. simpl in E.
    subst. rewrite ends_nonspace_snoc in H. apply negb_true_iff in H.
    now exists (rev r), a.
Qed.

Lemma rstrip_fixed (s : str) :
  s = [] \/ ends_nonspace s = true -> rstrip s = s.
Proof.
  intros [-> | H]; [reflexivity|].
  destruct (ends_nonspace_last s H) as (p & a & -> & Ha).
  unfold rstrip. rewrite rev_app_distr. simpl. rewrite Ha.
  simpl. now rewrite rev_involutive.
Qed.

Lemma strip_fixed (s : str) :
  s = [] \/ starts_nonspace s = true ->
  s = [] \/ ends_nonspace s = true ->
  strip s = s.
Proof.
  intros H1 H2. unfold strip. rewrite (lstrip_fixed H1). now apply rstrip_fixed.
Qed.

(** ** Words *)

Lemma split_ws_from_nonspace (o : str) :
  Forall (fun x => isspace x = false) o ->
  forall cur rest,
    split_ws_from cur (o ++ rest) = split_ws_from (rev o ++ cur) rest.
Proof.
  induction 1 as [|x o Hx _ IH]; intros cur rest; [reflexivity|].
  cbn [app split_ws_from rev]. rewrite Hx, IH, <- app_assoc. reflexivity.
Qed.

(** Case conversion keeps the number of words. *)
Lemma split_ws_from_pieces (s out : str) :
  pieces s out ->
  forall cur cur', (cur = [] <-> cur' = []) ->
    length (split_ws_from cur' out) = length (split_ws_from cur s).
Proof.
  induction 1 as [|c o s out [Hsp Hns] _ IH]; intros cur cur' [H1 H2].
  - simpl. destruct cur, cur'; simpl; try reflexivity;
      first [discriminate (H1 eq_refl) | discriminate (H2 eq_refl)].
  - destruct (isspace c) eqn:E.
    + rewrite (Hsp eq_refl). cbn [app split_ws_from]. rewrite E.
      destruct cur, cur'; cbn [length];
        first [discriminate (H1 eq_refl) | discriminate (H2 eq_refl) | idtac].
      * apply IH. tauto.
      * f_equal. apply IH. tauto.
    + destruct (Hns eq_refl) as [Hne Ho].
      rewrite (split_ws_from_nonspace Ho). cbn [split_ws_from]. rewrite E.
      apply IH. split; [discriminate|].
      intros H. apply app_eq_nil in H. destruct H as [H _].
      apply (f_equal (@rev char)) in H. rewrite rev_involutive in H.
      now elim Hne.
Qed.

Lemma word_count_capitalize (q : str) : word_count (capitalize q) = word_count q.
Proof.
  unfold word_count, split_ws.
  apply (split_ws_from_pieces (capitalize_pieces q)). tauto.
Qed.

Lemma pieces_nil_iff (s out : str) : pieces s out -> (s = [] <-> out = []).
Proof.
  destruct 1 as [|c o s out [Hsp Hns] _]; [tauto|].
  split; [discriminate|]. intros H. apply app_eq_nil in H. destruct H as [H _].
  destruct (isspace c) eqn:E.
  - rewrite (Hsp eq_refl) in H. discriminate H.
  - destruct (Hns eq_refl) as [Hne _]. now elim Hne.
Qed.

Lemma ends_nonspace_app (a b : str) :
  b <> [] -> ends_nonspace (a ++ b) = ends_nonspace b.
Proof.
  intros Hb. induction a as [|x a IH]; [reflexivity|].
  cbn [app ends_nonspace]. destruct (a ++ b) eqn:E; [|exact IH].
  apply app_eq_nil in E. destruct E as [_ E]. now elim Hb.
Qed.

Lemma ends_nonspace_all (o : str) :
  o <> [] -> Forall (fun x => isspace x = false) o -> ends_nonspace o = true.
Proof.
  intros Hne H. induction H as [|x o Hx Ho IH]; [now elim Hne|].
  cbn [ends_nonspace]. destruct o as [|y o]; [now rewrite Hx|].
  apply IH. discriminate.
Qed.

(** Case conversion keeps the last character apart from whitespace. *)
Lemma ends_nonspace_pieces (s out : str) :
  pieces s out -> ends_nonspace out = ends_nonspace s.
Proof.
  induction 1 as [|c o s out [Hsp Hns] Hp IH]; [reflexivity|].
  destruct s as [|d s].
  - apply pieces_nil_iff in Hp. rewrite (proj1 Hp eq_refl), app_nil_r.
    cbn [ends_nonspace]. destruct (isspace c) eqn:E.
    + rewrite (Hsp eq_refl). simpl. now rewrite E.
    + destruct (Hns eq_refl) as [Hne Ho]. now apply ends_nonspace_all.
  - rewrite ends_nonspace_app, IH; [reflexivity|].
    intros H. apply (pieces_nil_iff Hp) in H. discriminate H.
Qed.

Lemma split_ws_from_snoc (s : str) (c : char) :
  isspace c = false ->
  forall cur, ends_nonspace s = true \/ (s = [] /\ cur <> []) ->
    length (split_ws_from cur (s ++ [c])) = length (split_ws_from cur s).
Proof.
  intros Hc. induction s as [|a s IH]; intros cur H.
  - destruct H as [H | [_ H]]; [discriminate H|].
    simpl. rewrite Hc. destruct cur; [contradiction | reflexivity].
  - destruct H as [H | [H _]]; [|discriminate H].
    simpl in H. cbn [app split_ws_from].
    destruct s as [|b s].
    + destruct (isspace a); [discriminate H|].
      apply IH. right. split; [reflexivity | discriminate].
    + destruct (isspace a).
      * destruct cur; [apply IH; now left|].
        cbn [length]. f_equal. apply IH. now left.
      * apply IH. now left.
Qed.

Lemma word_count_snoc (s : str) (c : char) :
  isspace c = false -> ends_nonspace s = true ->
  word_count (s ++ [c]) = word_count s.
Proof.
  intros Hc Hs. unfold word_count, split_ws.
  apply split_ws_from_snoc; [assumption | now left].
Qed.

(** ** Question marks *)

Lemma endswith_one (c : char) (s : str) :
  endswith [c] s = true -> In c s.
Proof.
  unfold endswith. simpl. intros H. apply in_rev.
  destruct (rev s) as [|x r]; [discriminate H|].
  apply andb_true_iff in H. destruct H as [H _].
  apply N.eqb_eq in H. subst. now left.
Qed.

Lemma trailing_qmarks_snoc (s : str) :
  Forall (fun c => c <> QM) s -> trailing_qmarks (s ++ [QM]) = 1.
Proof.
  intros H. unfold trailing_qmarks. rewrite rev_app_distr. simpl.
  apply Forall_rev in H. destruct (rev s) as [|x r]; [reflexivity|].
  inversion H as [|? ? Hx _]; subst.
  simpl. unfold char_eqb. destruct (N.eqb_spec x QM); [contradiction | reflexivity].
Qed.

Lemma capitalize_no_QM (q : str) :
  Forall (fun c => c <> QM) q -> Forall (fun c => c <> QM) (capitalize q).
Proof.
  destruct 1 as [|c t Hc Ht]; cbn [capitalize]; [constructor|].
  apply Forall_app. split; [now apply to_title_full_QM|].
  apply (lower_from_Forall (fun c => c <> QM) (fun c => c <> QM));
    [intros b x a; apply lower_at_QM | exact Ht].
Qed.

(** The fragments of [re.split] hold no question mark. *)
Lemma re_split_from_no_QM (s : str) :
  forall (skipping : bool) (cur : str),
    Forall (fun c => c <> QM) cur ->
    Forall (Forall (fun c => c <> QM)) (re_split_from skipping cur s).
Proof.
  induction s as [|c s IH]; intros skipping cur H; simpl.
  - constructor; [now apply Forall_rev | constructor].
  - destruct (skipping && isspace c); [now apply IH|].
    unfold char_eqb.
    destruct (N.eqb_spec c NL).
    + constructor; [now apply Forall_rev | apply IH; constructor].
    + destruct (N.eqb_spec c QM).
      * constructor; [now apply Forall_rev | apply IH; constructor].
      * apply IH. now constructor.
Qed.

Lemma re_split_no_QM (s : str) :
  Forall (Forall (fun c => c <> QM)) (re_split s).
Proof. apply re_split_from_no_QM. constructor. Qed.

(** ** Lines *)

Lemma split_nl_line (x : str) :
  Forall (fun c => c <> NL) x -> split_nl x = [x].
Proof.
  induction 1 as [|c x Hc _ IH]; [reflexivity|].
  simpl. unfold char_eqb. destruct (N.eqb_spec c NL); [contradiction|].
  now rewrite IH.
Qed.

Lemma split_nl_app (x y : str) :
  Forall (fun c => c <> NL) x ->
  split_nl (x ++ NL :: y) = x :: split_nl y.
Proof.
  induction 1 as [|c x Hc _ IH]; [reflexivity|].
  simpl. unfold char_eqb. destruct (N.eqb_spec c NL); [contradiction|].
  simpl in IH. unfold char_eqb in IH. now rewrite IH.
Qed.

Lemma split_nl_join_nl (l : list str) :
  l <> [] -> Forall (Forall (fun c => c <> NL)) l -> split_nl (join_nl l) = l.
Proof.
  intros Hne H. induction H as [|x l Hx Hl IH]; [contradiction|].
  destruct l as [|y l].
  - simpl. now apply split_nl_line.
  - change (join_nl (x :: y :: l)) with (x ++ NL :: join_nl (y :: l)).
    rewrite (split_nl_app _ Hx). f_equal. apply IH. discriminate.
Qed.

(** ** Whitespace runs *)

Lemma sub_spaces_cons (c : char) (t : str) :
  sub_spaces (c :: t) =
  if isspace c then
    match t with
    | d :: _ => if isspace d then sub_spaces t else SP :: sub_spaces t
    | [] => [SP]
    end
  else c :: sub_spaces t.
Proof. reflexivity. Qed.

Lemma sub_spaces_head (d : char) (t : str) :
  isspace d = true -> exists r, sub_spaces (d :: t) = SP :: r.
Proof.
  revert d. induction t as [|e t IH]; intros d Hd;
    rewrite sub_spaces_cons, Hd.
  - now exists [].
  - destruct (isspace e) eqn:He.
    + exact (IH e He).
    + now exists (sub_spaces (e :: t)).
Qed.

Lemma sub_spaces_cons_nonspace (c : char) (t : str) :
  isspace c = false -> sub_spaces (c :: t) = c :: sub_spaces t.
Proof. intros H. rewrite sub_spaces_cons. now rewrite H. Qed.

(** The substitution leaves no neighbours related by [R], when [R] never
    holds of a space put in by the substitution. *)
Lemma sub_spaces_no_adjacent (R : char -> char -> bool) :
  (forall x, isspace x = false -> R x SP = false) ->
  (forall x, isspace x = false -> R SP x = false) ->
  forall s,
    (forall a b p q, s = p ++ a :: b :: q ->
                     isspace a = false -> isspace b = false -> R a b = false) ->
    no_adjacent R (sub_spaces s) = true.
Proof.
  intros HR1 HR2. induction s as [|c t IH]; intros H; [reflexivity|].
  assert (Ht : no_adjacent R (sub_spaces t) = true).
  { apply IH. intros a b p q E. apply (H a b (c :: p) q). now rewrite E. }
  destruct (isspace c) eqn:Ec.
  - rewrite sub_spaces_cons, Ec. destruct t as [|d t']; [reflexivity|].
    destruct (isspace d) eqn:Ed; [exact Ht|].
    rewrite no_adjacent_cons. rewrite (@sub_spaces_cons_nonspace d t' Ed) in *.
    rewrite Ht, (HR2 d Ed). reflexivity.
  - rewrite (@sub_spaces_cons_nonspace c t Ec), no_adjacent_cons.
    destruct t as [|d t']; [reflexivity|].
    destruct (isspace d) eqn:Ed.
    + destruct (@sub_spaces_head d t' Ed) as [r Er]. rewrite Er in *.
      rewrite Ht, (HR1 c Ec). reflexivity.
    + rewrite (@sub_spaces_cons_nonspace d t' Ed) in *.
      rewrite Ht, (H c d [] t' eq_refl Ec Ed). reflexivity.
Qed.

Lemma sub_spaces_no_run (s : str) : no_adjacent space_pair (sub_spaces s) = true.
Proof.
  apply sub_spaces_no_adjacent; unfold space_pair.
  - intros x Hx. now rewrite Hx.
  - intros x Hx. rewrite Hx. apply andb_false_r.
  - intros a b p q _ Ha _. now rewrite Ha.
Qed.

(** ** Camel-case boundaries *)

Lemma sub_camel_cons (a b : char) (r : str) :
  sub_camel (a :: b :: r) =
  if camel_pair a b then a :: SP :: b :: sub_camel r
  else a :: sub_camel (b :: r).
Proof. reflexivity. Qed.

Lemma sub_camel_head (a : char) (s : str) :
  exists r, sub_camel (a :: s) = a :: r.
Proof.
  destruct s as [|b s]; [now exists []|].
  rewrite sub_camel_cons. destruct (camel_pair a b); eauto.
Qed.

Lemma camel_pair_SP_r (x : char) : camel_pair x SP = false.
Proof. unfold camel_pair. apply andb_false_r. Qed.

Lemma camel_pair_SP_l (x : char) : camel_pair SP x = false.
Proof. reflexivity. Qed.

Lemma camel_pair_upper_l (b x : char) : is_upper b = true -> camel_pair b x = false.
Proof.
  intros H. unfold camel_pair.
  assert (E : is_lower b = false).
  { apply is_upper_iff in H. apply not_true_iff. rewrite is_lower_iff. lia. }
  now rewrite E.
Qed.

(** After the substitution no boundary is left; shown for a string and
    for the string with one more character in front, since a match
    consumes two characters. *)
Lemma sub_camel_no_adjacent_2 (s : str) :
  no_adjacent camel_pair (sub_camel s) = true /\
  forall a, no_adjacent camel_pair (sub_camel (a :: s)) = true.
Proof.
  induction s as [|b r [IH1 IH2]].
  - split; [reflexivity | intros a; reflexivity].
  - split; [apply IH2|]. intros a. rewrite sub_camel_cons.
    destruct (camel_pair a b) eqn:E.
    + rewrite !no_adjacent_cons, camel_pair_SP_r, camel_pair_SP_l. simpl negb.
      apply andb_true_iff in E. destruct E as [_ Eb].
      cbn [andb]. destruct (sub_camel r) as [|x r'] eqn:Er; [reflexivity|].
      rewrite (camel_pair_upper_l b x Eb). exact IH1.
    + destruct (sub_camel_head b r) as [r' Er]. rewrite no_adjacent_cons, Er.
      rewrite E. cbn [negb andb]. rewrite <- Er. apply IH2.
Qed.

Lemma sub_camel_no_adjacent (s : str) :
  no_adjacent camel_pair (sub_camel s) = true.
Proof. apply sub_camel_no_adjacent_2. Qed.

Lemma sub_camel_fixed (s : str) :
  no_adjacent camel_pair s = true -> sub_camel s = s.
Proof.
  induction s as [|a t IH]; [reflexivity|].
  destruct t as [|b r]; [reflexivity|].
  rewrite no_adjacent_cons, sub_camel_cons. intros H.
  apply andb_true_iff in H. destruct H as [H1 H2].
  apply negb_true_iff in H1. rewrite H1. f_equal. now apply IH.
Qed.

Lemma no_adjacent_at (R : char -> char -> bool) (p q : str) (a b : char) :
  no_adjacent R (p ++ a :: b :: q) = true -> R a b = false.
Proof.
  intros H. apply no_adjacent_suffix in H. rewrite no_adjacent_cons in H.
  apply andb_true_iff in H. destruct H as [H _]. now apply negb_true_iff.
Qed.

(** ** Bullets and dashes *)

Lemma is_bullet_SP : is_bullet SP = false.
Proof. reflexivity. Qed.

Lemma sub_bullets_clean (s : str) :
  Forall (fun x => is_bullet x = false) (sub_bullets s).
Proof.
  unfold sub_bullets. induction s as [|c s IH]; simpl; constructor; [|exact IH].
  destruct (is_bullet c) eqn:E; [apply is_bullet_SP | exact E].
Qed.

Lemma sub_bullets_fixed (s : str) :
  Forall (fun x => is_bullet x = false) s -> sub_bullets s = s.
Proof.
  unfold sub_bullets. induction 1 as [|c s Hc _ IH]; simpl; [reflexivity|].
  now rewrite Hc, IH.
Qed.

Lemma sub_bullets_no_camel (s : str) :
  no_adjacent camel_pair s = true ->
  no_adjacent camel_pair (sub_bullets s) = true.
Proof.
  unfold sub_bullets. induction s as [|a t IH]; [reflexivity|].
  destruct t as [|b r]; [reflexivity|].
  rewrite no_adjacent_cons. intros H. apply andb_true_iff in H.
  destruct H as [H1 H2]. specialize (IH H2).
  cbn [map] in *. rewrite no_adjacent_cons, IH, andb_true_r.
  destruct (is_bullet a); [now rewrite camel_pair_SP_l|].
  destruct (is_bullet b); [now rewrite camel_pair_SP_r | exact H1].
Qed.

(** ** Whitespace after the substitution *)

Lemma sub_spaces_Forall (P : char -> Prop) (s : str) :
  P SP -> Forall (fun x => isspace x = false -> P x) s ->
  Forall P (sub_spaces s).
Proof.
  intros HP. induction 1 as [|c t Hc _ IH]; [constructor|].
  rewrite sub_spaces_cons. destruct (isspace c) eqn:Ec.
  - destruct t as [|d t']; [repeat constructor; exact HP|].
    destruct (isspace d); [exact IH | constructor; [exact HP | exact IH]].
  - constructor; [now apply Hc | exact IH].
Qed.

Lemma sub_spaces_only_SP (s : str) :
  Forall (fun x => isspace x = true -> x = SP) (sub_spaces s).
Proof.
  apply sub_spaces_Forall; [reflexivity|].
  apply Forall_forall. intros x _ Hx Hx'. congruence.
Qed.

Lemma sub_spaces_no_bullet (s : str) :
  Forall (fun x => is_bullet x = false) s ->
  Forall (fun x => is_bullet x = false) (sub_spaces s).
Proof.
  intros H. apply sub_spaces_Forall; [reflexivity|].
  apply Forall_forall. intros x Hx _. rewrite Forall_forall in H. now apply H.
Qed.

Lemma sub_spaces_no_camel (s : str) :
  no_adjacent camel_pair s = true ->
  no_adjacent camel_pair (sub_spaces s) = true.
Proof.
  intros H. apply sub_spaces_no_adjacent.
  - intros x _. apply camel_pair_SP_r.
  - intros x _. apply camel_pair_SP_l.
  - intros a b p q -> _ _. exact (no_adjacent_at _ _ _ _ _ H).
Qed.

Lemma sub_spaces_fixed (s : str) :
  no_adjacent space_pair s = true ->
  Forall (fun x => isspace x = true -> x = SP) s ->
  sub_spaces s = s.
Proof.
  intros Hn Hs. induction Hs as [|c t Hc _ IH]; [reflexivity|].
  specialize (IH (no_adjacent_tail _ _ _ Hn)).
  rewrite sub_spaces_cons. destruct (isspace c) eqn:Ec.
  - rewrite (Hc eq_refl) in *. destruct t as [|d t']; [reflexivity|].
    rewrite no_adjacent_cons in Hn. apply andb_true_iff in Hn.
    destruct Hn as [Hn _]. apply negb_true_iff in Hn.
    unfold space_pair in Hn. rewrite isspace_SP in Hn. simpl in Hn.
    rewrite Hn. now rewrite IH.
  - now rewrite IH.
Qed.

(** ** Candidate scanner: one line at a time *)

Lemma scan_line_candidates (questions : list str) (line : str) :
  scan_line questions line = questions ++ line_candidates line.
Proof.
  unfold scan_line, line_candidates.
  destruct (length (strip line) <? 25); [now rewrite app_nil_r|].
  destruct (looks_like_question (strip line)); [reflexivity | now rewrite app_nil_r].
Qed.

Lemma scan_lines_flat_map (lines : list str) :
  fold_left scan_line lines [] = flat_map line_candidates lines.
Proof.
  transitivity (fold_left (fun a x => a ++ line_candidates x) lines []).
  - generalize (@nil str). induction lines as [|l lines IH]; intros acc; simpl.
    + reflexivity.
    + rewrite scan_line_candidates. apply IH.
  - now rewrite fold_left_append.
Qed.

Lemma extract_question_candidates_In (text c : str) :
  In c (extract_question_candidates text) <->
  exists line, In line (split_nl text) /\ In c (line_candidates line).
Proof.
  unfold extract_question_candidates.
  rewrite dict_fromkeys_In, scan_lines_flat_map. apply in_flat_map.
Qed.

Lemma line_candidates_In (line c : str) :
  In c (line_candidates line) ->
  25 <= length (strip line) /\ looks_like_question (strip line) = true /\
  c = normalize (strip line).
Proof.
  unfold line_candidates.
  destruct (length (strip line) <? 25) eqn:E; [intros []|].
  apply Nat.ltb_ge in E.
  destruct (looks_like_question (strip line)); [|intros []].
  intros [<- | []]. auto.
Qed.

Lemma normalize_no_run (line : str) :
  no_adjacent space_pair (normalize line) = true.
Proof. unfold normalize. apply strip_no_adjacent, sub_spaces_no_run. Qed.

(** C7: for every text, each emitted candidate is the normal form of a
    line whose trimmed form has at least 25 characters, and no emitted
    candidate holds two whitespace characters in a row. *)
Theorem candidates_long_and_collapsed :
  forall (text : str),
    Forall (fun c => from_long_line text c /\ no_adjacent space_pair c = true)
           (extract_question_candidates text).
Proof.
  intros text. apply Forall_forall. intros c Hc.
  apply extract_question_candidates_In in Hc. destruct Hc as [line [Hl Hc]].
  apply line_candidates_In in Hc. destruct Hc as (Hlen & _ & ->).
  split.
  - now exists line.
  - apply normalize_no_run.
Qed.

(** ** Normal candidates *)

Lemma normalize_normal (line : str) : normal (normalize line).
Proof.
  unfold normalize. repeat split.
  - apply strip_no_adjacent, sub_spaces_no_camel, sub_bullets_no_camel,
      sub_camel_no_adjacent.
  - apply strip_Forall, sub_spaces_no_bullet, sub_bullets_clean.
  - apply strip_no_adjacent, sub_spaces_no_run.
  - apply strip_Forall, sub_spaces_only_SP.
  - apply strip_starts_nonspace.
  - apply strip_ends_nonspace.
Qed.

Lemma normal_strip (c : str) : normal c -> strip c = c.
Proof. intros (_ & _ & _ & _ & H1 & H2). now apply strip_fixed. Qed.

Lemma normal_normalize (c : str) : normal c -> normalize c = c.
Proof.
  intros H. pose proof (normal_strip H) as Hs.
  destruct H as (Hc & Hb & Hn & Hsp & _ & _). unfold normalize.
  now rewrite (sub_camel_fixed _ Hc), (sub_bullets_fixed Hb),
    (sub_spaces_fixed Hn Hsp).
Qed.

Lemma normal_no_NL (c : str) : normal c -> Forall (fun x => x <> NL) c.
Proof.
  intros (_ & _ & _ & Hsp & _ & _). apply Forall_forall. intros x Hx ->.
  rewrite Forall_forall in Hsp. specialize (Hsp NL Hx eq_refl). discriminate Hsp.
Qed.

Lemma line_candidates_normal (c : str) :
  normal c -> line_candidates c = if still_candidate c then [c] else [].
Proof.
  intros H. unfold line_candidates, still_candidate.
  rewrite (normal_strip H), (normal_normalize H).
  rewrite Nat.ltb_antisym. destruct (25 <=? length c); simpl; [|reflexivity].
  now destruct (looks_like_question c).
Qed.

Lemma flat_map_line_candidates (cs : list str) :
  Forall normal cs -> flat_map line_candidates cs = filter still_candidate cs.
Proof.
  induction 1 as [|c cs Hc _ IH]; [reflexivity|].
  cbn [flat_map filter]. rewrite IH, (line_candidates_normal Hc).
  now destruct (still_candidate c).
Qed.

Lemma extract_question_candidates_normal (text : str) :
  Forall normal (extract_question_candidates text).
Proof.
  apply Forall_forall. intros c Hc.
  apply extract_question_candidates_In in Hc. destruct Hc as [line [_ Hc]].
  apply line_candidates_In in Hc. destruct Hc as (_ & _ & ->).
  apply normalize_normal.
Qed.

(** ** Scanning twice *)

(** Scanning the candidates again, one per line. *)
Lemma rescan_lines (cs : list str) :
  Forall normal cs ->
  flat_map line_candidates (split_nl (join_nl cs)) = filter still_candidate cs.
Proof.
  intros H. destruct cs as [|c cs]; [reflexivity|].
  rewrite split_nl_join_nl.
  - now apply flat_map_line_candidates.
  - discriminate.
  - apply Forall_forall. intros x Hx. apply normal_no_NL.
    rewrite Forall_forall in H. now apply H.
Qed.

(** The candidate of a widely spaced question is too short to be scanned
    a second time. *)
Lemma rescan_drops_short_candidate :
  extract_question_candidates spaced_question = [lit "What is a database?"] /\
  extract_question_candidates
    (join_nl (extract_question_candidates spaced_question)) = [] /\
  extract_question_candidates
    (join_nl (extract_question_candidates spaced_question))
  <> extract_question_candidates spaced_question.
Proof.
  repeat split; try (vm_compute; reflexivity).
  vm_compute. discriminate.
Qed.

(** A verb split at a camel-case boundary is no verb any more. *)
Example rescan_drops_broken_verb :
  extract_question_candidates (lit "DeFine the normal forms of a database")
  = [lit "De Fine the normal forms of a database"] /\
  extract_question_candidates (lit "De Fine the normal forms of a database") = [].
Proof. split; vm_compute; reflexivity. Qed.

Lemma extract_rescan (text : str) :
  extract_question_candidates (join_nl (extract_question_candidates text))
  = filter still_candidate (extract_question_candidates text).
Proof.
  unfold extract_question_candidates at 1.
  rewrite scan_lines_flat_map, rescan_lines
    by apply extract_question_candidates_normal.
  apply dict_fromkeys_id, NoDup_filter, dict_fromkeys_NoDup.
Qed.

Lemma filter_filter {X : Type} (f : X -> bool) (l : list X) :
  filter f (filter f l) = filter f l.
Proof.
  induction l as [|x l IH]; [reflexivity|].
  simpl. destruct (f x) eqn:E; simpl; [rewrite E; now f_equal | exact IH].
Qed.

(** From the second scan on nothing changes any more. *)
Lemma rescan_twice_fixed (text : str) :
  let cs' := extract_question_candidates
               (join_nl (extract_question_candidates text)) in
  extract_question_candidates (join_nl cs') = cs'.
Proof.
  intros cs'. unfold cs'. rewrite (extract_rescan (join_nl _)).
  rewrite extract_rescan. apply filter_filter.
Qed.

(** C6 (amended): for every text the candidate list holds no string
    twice, and scanning the candidates again (rejoined by newlines) adds
    nothing and alters nothing: it returns, in the same order, the
    candidates that still have at least 25 characters and still pass the
    question test. *)
Theorem rescan_keeps_sublist :
  forall (text : str),
    let cs := extract_question_candidates text in
    NoDup cs /\
    extract_question_candidates (join_nl cs) = filter still_candidate cs /\
    incl (extract_question_candidates (join_nl cs)) cs.
Proof.
  intros text cs. repeat split.
  - apply dict_fromkeys_NoDup.
  - apply extract_rescan.
  - unfold cs. rewrite extract_rescan. intros x Hx.
    apply filter_In in Hx. tauto.
Qed.

(** ** Scenarios A and B *)

Example scenario_A_retained :
  extract_question_candidates
    (lit "Define normalization and explain its types in detail")
  = [lit "Define normalization and explain its types in detail"].
Proof. vm_compute. reflexivity. Qed.

Example scenario_B_discarded : extract_question_candidates (lit "ok") = [].
Proof. vm_compute. reflexivity. Qed.

(** A bullet (code point 8226), a hyphen, a camel-case boundary and wide
    blanks in one line; a short line; the same question once more. *)
Example scan_normalizes_and_dedups :
  extract_question_candidates
    (lit "  explainThe   two-phase locking " ++ 8226%N :: lit " protocol?  "
     ++ NL :: lit "short line?"
     ++ NL :: lit "explain The two phase locking protocol?")
  = [lit "explain The two phase locking protocol?"].
Proof. vm_compute. reflexivity. Qed.

(** ** Question refiner: failures of the rewrite call *)

(** A reply that cannot be used never returns from inside the [try]. *)
Lemma try_rewrite_unusable (post : str -> reply) (prompt : str) (data : json) :
  post prompt = Body data ->
  usable_payload data = false ->
  try_rewrite post prompt = ret None \/ exists e, try_rewrite post prompt = raise e.
Proof.
  intros Hp Hu. unfold try_rewrite. rewrite Hp.
  destruct data as [| | | |l|]; try (left; reflexivity).
  destruct l as [|d0 rest]; simpl.
  - right. now exists IndexError.
  - destruct d0 as [| | |s|l0|d]; simpl;
      try (right; now exists TypeError).
    + destruct (is_substring GENERATED_TEXT s);
        [right; now exists TypeError | left; reflexivity].
    + destruct (existsb (json_is_str GENERATED_TEXT) l0);
        [right; now exists TypeError | left; reflexivity].
    + simpl in Hu. destruct (dict_get GENERATED_TEXT d) as [v|]; simpl.
      * destruct v; simpl; try discriminate Hu; right; now exists TypeError.
      * left; reflexivity.
Qed.

(** C1: whenever the rewrite call raises (transport failure, timeout, a
    body that is not JSON) or returns a malformed or empty payload,
    [ai_clean_questions] returns a list, namely exactly what
    [force_questions] returns for the seed block; the exception is handled
    inside and the caller never sees it. *)
Theorem ai_clean_questions_failure_falls_back :
  forall (post : str -> reply) (seed_questions : list str),
    let seed := join_nl (firstn 10 seed_questions) in
    (exists e, post (build_prompt seed) = Raises e) \/
    (exists data, post (build_prompt seed) = Body data /\
                  usable_payload data = false) ->
    ai_clean_questions post seed_questions = force_questions seed.
Proof.
  intros post seed_questions seed H. unfold ai_clean_questions. fold seed.
  destruct H as [[e He] | [data [Hd Hu]]].
  - unfold try_rewrite. rewrite He. reflexivity.
  - destruct (try_rewrite_unusable post _ Hd Hu) as [E | [e E]];
      rewrite E; reflexivity.
Qed.

Lemma ai_clean_questions_failure_falls_back_witness :
  ai_clean_questions post_timeout [lit "What is a transaction in a database?"]
  = force_questions (lit "What is a transaction in a database?").
Proof.
  apply (ai_clean_questions_failure_falls_back post_timeout
           [lit "What is a transaction in a database?"]).
  left. exists RequestTimeout. reflexivity.
Defined.

(** ** Question refiner: the rewrite path *)

(** The only way out of the [try] block with a value. *)
Lemma try_rewrite_return (post : str -> reply) (prompt : str) (final : list str) :
  try_rewrite post prompt = ret (Some final) ->
  exists d rest raw,
    post prompt = Body (JList (JDict d :: rest)) /\
    dict_get GENERATED_TEXT d = Some (JStr raw) /\
    final = dict_fromkeys (kept_fragments raw) /\
    MIN_QUESTIONS <= length final.
Proof.
  unfold try_rewrite. destruct (post prompt) as [e|data]; [discriminate|].
  destruct data as [| | | |l|]; try discriminate.
  destruct l as [|d0 rest]; [discriminate|].
  destruct d0 as [| | |s|l0|d];
    cbn [bind first_item py_in py_getitem expect_str ret raise];
    try discriminate.
  - destruct (is_substring GENERATED_TEXT s); discriminate.
  - destruct (existsb (json_is_str GENERATED_TEXT) l0); discriminate.
  - destruct (dict_get GENERATED_TEXT d) as [v|] eqn:E; [|discriminate].
    destruct v as [| | |raw| |];
      cbn [bind first_item py_in py_getitem expect_str ret raise];
      try discriminate.
    destruct (MIN_QUESTIONS <=? length (dict_fromkeys (kept_fragments raw))) eqn:L;
      [|discriminate].
    intros H. injection H as <-. apply Nat.leb_le in L.
    now exists d, rest, raw.
Qed.

Section Refined.

(** A property that every finished question has. *)
Variable P : str -> Prop.
Hypothesis finish_ok :
  forall q, Forall (fun c => c <> QM) q ->
            q = [] \/ ends_nonspace q = true ->
            6 <= word_count q <= 18 ->
            P (finish_question q).

Lemma refine_step_Forall (final : list str) (f : str) :
  Forall (fun c => c <> QM) f ->
  Forall P final -> Forall P (refine_step final f).
Proof.
  intros Hf Hfinal. unfold refine_step.
  destruct ((6 <=? length (split_ws (strip f))) &&
            (length (split_ws (strip f)) <=? 18)) eqn:E; [|assumption].
  apply andb_true_iff in E. destruct E as [E1 E2].
  apply Nat.leb_le in E1, E2.
  apply Forall_app. split; [assumption|]. constructor; [|constructor].
  apply finish_ok.
  - now apply strip_Forall.
  - apply strip_ends_nonspace.
  - unfold word_count. lia.
Qed.

Lemma refine_loop_Forall (frags final : list str) :
  Forall (Forall (fun c => c <> QM)) frags ->
  Forall P final -> Forall P (fold_left refine_step frags final).
Proof.
  intros H. revert final.
  induction H as [|f frags Hf _ IH]; intros final Hfinal; simpl.
  - assumption.
  - apply IH. now apply refine_step_Forall.
Qed.

Lemma kept_fragments_Forall (raw : str) : Forall P (kept_fragments raw).
Proof.
  unfold kept_fragments. apply refine_loop_Forall; [apply re_split_no_QM|].
  constructor.
Qed.

Lemma try_rewrite_Forall (post : str -> reply) (prompt : str) (final : list str) :
  try_rewrite post prompt = ret (Some final) -> Forall P final.
Proof.
  intros H. apply try_rewrite_return in H.
  destruct H as (d & rest & raw & _ & _ & -> & _).
  apply Forall_forall. intros q Hq.
  apply (proj1 (dict_fromkeys_In _ _)) in Hq.
  pose proof (kept_fragments_Forall raw) as HF.
  rewrite Forall_forall in HF. exact (HF q Hq).
Qed.

End Refined.

Lemma finish_question_no_QM (q : str) :
  Forall (fun c => c <> QM) q -> finish_question q = capitalize q ++ [QM].
Proof.
  intros H. unfold finish_question.
  destruct (endswith [QM] (capitalize q)) eqn:E; [|reflexivity].
  apply endswith_one in E. apply capitalize_no_QM in H.
  rewrite Forall_forall in H. now elim (H QM E).
Qed.

Lemma finish_question_well_formed (q : str) :
  Forall (fun c => c <> QM) q ->
  q = [] \/ ends_nonspace q = true ->
  6 <= word_count q <= 18 ->
  well_formed_question (finish_question q).
Proof.
  intros Hq He Hw. rewrite finish_question_no_QM by assumption.
  destruct He as [-> | He]; [vm_compute in Hw; lia|].
  split.
  - rewrite word_count_snoc; [now rewrite word_count_capitalize | reflexivity |].
    now rewrite (ends_nonspace_pieces (capitalize_pieces q)).
  - apply trailing_qmarks_snoc. now apply capitalize_no_QM.
Qed.




(** On the fallback path the first template gives four words, and the
    second a sentence that ends with a full stop. *)
Lemma fallback_questions_not_well_formed :
  ai_clean_questions post_timeout [] = force_questions tt /\
  nth 1 (ai_clean_questions post_timeout []) []
  = lit "Explain database management system." /\
  word_count (lit "Explain database management system.") = 4 /\
  trailing_qmarks (lit "Explain database management system.") = 0 /\
  ~ Forall well_formed_question (ai_clean_questions post_timeout []).
Proof.
  repeat split; try (vm_compute; reflexivity).
  intros H. rewrite Forall_forall in H.
  destruct (H (lit "Explain database management system.")) as [_ Ht].
  - vm_compute. tauto.
  - vm_compute in Ht. discriminate Ht.
Qed.

(** C2 (amended): when the rewrite output is accepted (the [try] block
    returns), [ai_clean_questions] returns that list and every element
    of it has between 6 and 18 words and ends with exactly one [?]. *)
Theorem refined_questions_well_formed :
  forall (post : str -> reply) (seed_questions final : list str),
    try_rewrite post (build_prompt (join_nl (firstn 10 seed_questions)))
    = ret (Some final) ->
    ai_clean_questions post seed_questions = final /\
    Forall well_formed_question final.
Proof.
  intros post seed_questions final H. split.
  - unfold ai_clean_questions. now rewrite H.
  - exact (@try_rewrite_Forall _ finish_question_well_formed _ _ _ H).
Qed.

Lemma refined_questions_well_formed_witness :
  ai_clean_questions post_refined [] = refined_expected /\
  Forall well_formed_question refined_expected.
Proof.
  apply (refined_questions_well_formed post_refined [] (final := refined_expected)).
  vm_compute. reflexivity.
Defined.




(** ** Scenario D *)

Lemma scenario_D_not_two_fragments :
  length (kept_fragments scenario_D_text) <> 2.
Proof. vm_compute. discriminate. Qed.

(** C4 (amended): on the payload whose text is
    ["Explain ACID properties in detail\nWhat is normalization\n"], the
    split gives the fragments of 5, 3 and 0 words, the filter keeps none
    of them, and since 0 is below the threshold 5 the result is the
    fallback set. *)
Theorem scenario_D_falls_back :
  forall (post : str -> reply) (seed_questions : list str),
    let seed := join_nl (firstn 10 seed_questions) in
    post (build_prompt seed) = Body (payload_of scenario_D_text) ->
    map (fun q => length (split_ws q)) (re_split scenario_D_text) = [5; 3; 0] /\
    kept_fragments scenario_D_text = [] /\
    ai_clean_questions post seed_questions = force_questions seed.
Proof.
  intros post seed_questions seed H.
  split; [vm_compute; reflexivity|].
  split; [vm_compute; reflexivity|].
  unfold ai_clean_questions. fold seed. unfold try_rewrite. rewrite H.
  reflexivity.
Qed.

Lemma scenario_D_falls_back_witness :
  ai_clean_questions (fun _ => Body (payload_of scenario_D_text)) []
  = force_questions (join_nl (firstn 10 (@nil str))).
Proof.
  apply (scenario_D_falls_back (fun _ => Body (payload_of scenario_D_text)) []).
  reflexivity.
Defined.

(** ** Template fallback *)

(** While the loops run, [final] has fewer than 12 entries; a [return]
    inside the loops hands back exactly 12. *)
Lemma template_step_bound (topic t : str) (final used : list str) :
  length final < 12 ->
  match template_step topic (final, used) t with
  | inl (final', _) => length final' < 12
  | inr r => length r = 12
  end.
Proof.
  intros H. unfold template_step.
  destruct (negb (mem (format t topic) used)).
  - destruct (12 <=? length (final ++ [format t topic])) eqn:E.
    + apply Nat.leb_le in E. rewrite length_app in *. simpl in *. lia.
    + apply Nat.leb_gt in E. exact E.
  - destruct (12 <=? length final) eqn:E.
    + apply Nat.leb_le in E. lia.
    + exact H.
Qed.

Lemma for_each_bound {X : Type} (body : fq_state -> X -> fq_state + list str)
  (xs : list X) :
  (forall final used x, length final < 12 ->
     match body (final, used) x with
     | inl (final', _) => length final' < 12
     | inr r => length r = 12
     end) ->
  forall final used, length final < 12 ->
    match for_each body xs (final, used) with
    | inl (final', _) => length final' < 12
    | inr r => length r = 12
    end.
Proof.
  intros Hbody. induction xs as [|x xs IH]; intros final used H; simpl.
  - exact H.
  - specialize (Hbody final used x H).
    destruct (body (final, used) x) as [[final' used']|r].
    + apply IH. exact Hbody.
    + exact Hbody.
Qed.

(** Whatever the tables, the generator returns at most 12 questions. *)
Lemma force_questions_of_length (tps tms : list str) :
  length (force_questions_of tps tms) <= 12.
Proof.
  unfold force_questions_of.
  pose proof (@for_each_bound str
                (fun st topic => for_each (template_step topic) tms st) tps) as H.
  assert (Hb : forall final used x, length final < 12 ->
             match for_each (template_step x) tms (final, used) with
             | inl (final', _) => length final' < 12
             | inr r => length r = 12
             end).
  { intros final used x. apply for_each_bound.
    intros f u t. apply template_step_bound. }
  specialize (H Hb [] [] ltac:(simpl; lia)).
  destruct (for_each (fun st topic => for_each (template_step topic) tms st)
              tps ([], [])) as [[final' used']|r].
  - rewrite length_firstn. lia.
  - lia.
Qed.

(** The twelve questions the fixed tables give. *)
Lemma force_questions_value (A : Type) (a : A) :
  force_questions a =
  map lit
    ["Define database management system?";
     "Explain database management system.";
     "Describe database management system with an example.";
     "Differentiate database management system and relational databases.";
     "Explain the importance of database management system.";
     "Define data model?";
     "Explain data model.";
     "Describe data model with an example.";
     "Differentiate data model and relational databases.";
     "Explain the importance of data model.";
     "Define entity relationship model?";
     "Explain entity relationship model."]%string.
Proof. vm_compute. reflexivity. Qed.

(** C5: [force_questions] ignores its argument: any two calls, on inputs
    of any type, return the same ordered list, and that list has at least
    10 and at most 12 entries (with the fixed tables, exactly 12). *)
Theorem force_questions_deterministic_bounded :
  forall (A B : Type) (a : A) (b : B),
    force_questions a = force_questions b /\
    10 <= length (force_questions a) <= 12.
Proof.
  intros A B a b. split.
  - reflexivity.
  - rewrite force_questions_value. simpl. lia.
Qed.

(** ** Keyword summarizer *)

Section Tally.

(** A property of words that the tally preserves. *)
Variable P : str -> Prop.

Lemma counter_add_ok (w : str) (c : list (str * nat)) :
  P w -> Forall (entry_ok P) c -> Forall (entry_ok P) (counter_add w c).
Proof.
  intros Hw. induction 1 as [|[k n] c [Hk Hn] Hc IH]; simpl.
  - repeat constructor; simpl; auto.
  - destruct (str_eqb k w).
    + constructor; [split; simpl in *; auto | assumption].
    + constructor; [split; assumption | assumption].
Qed.

Lemma Counter_from_ok (words : list str) (c : list (str * nat)) :
  Forall P words -> Forall (entry_ok P) c ->
  Forall (entry_ok P) (fold_left (fun c w => counter_add w c) words c).
Proof.
  intros Hw. revert c. induction Hw as [|w words Hw Hws IH]; intros c Hc; simpl.
  - assumption.
  - apply IH. now apply counter_add_ok.
Qed.

Lemma Counter_ok (words : list str) :
  Forall P words -> Forall (entry_ok P) (Counter words).
Proof. intros H. apply Counter_from_ok; [assumption | constructor]. Qed.

End Tally.

Lemma insert_desc_In (x y : str * nat) (l : list (str * nat)) :
  In y (insert_desc x l) <-> y = x \/ In y l.
Proof.
  induction l as [|z l IH]; simpl.
  - intuition.
  - destruct (snd x <? snd z); simpl; [rewrite IH|]; intuition.
Qed.

Lemma sorted_desc_In (y : str * nat) (l : list (str * nat)) :
  In y (sorted_desc l) <-> In y l.
Proof.
  induction l as [|x l IH]; simpl; [tauto|].
  rewrite insert_desc_In, IH. intuition.
Qed.

Lemma most_common_In (n : nat) (y : str * nat) (c : list (str * nat)) :
  In y (most_common n c) -> In y c.
Proof.
  unfold most_common. intros H. apply In_firstn in H.
  now apply sorted_desc_In.
Qed.

Lemma most_common_length (n : nat) (c : list (str * nat)) :
  length (most_common n c) <= n.
Proof. unfold most_common. rewrite length_firstn. lia. Qed.

Lemma keyword_step_ok (words : list str) (q : str) :
  Forall not_stop_word words -> Forall not_stop_word (keyword_step words q).
Proof.
  unfold keyword_step. generalize (findall_words (lower q)) as ws.
  intros ws. revert words.
  induction ws as [|w ws IH]; intros words H; cbn [fold_left].
  - assumption.
  - apply IH. destruct (mem w STOP_WORDS) eqn:E; cbn [negb]; [assumption|].
    apply Forall_app. split; [assumption | repeat constructor; exact E].
Qed.

Lemma keyword_words_ok (questions words : list str) :
  Forall not_stop_word words ->
  Forall not_stop_word (fold_left keyword_step questions words).
Proof.
  revert words. induction questions as [|q qs IH]; intros words H; simpl.
  - assumption.
  - apply IH. now apply keyword_step_ok.
Qed.

(** C8: for every list of questions, [extract_keywords] returns at most
    10 entries, no returned word is a stop word, and every returned count
    is at least 1. *)
Theorem extract_keywords_bounded_clean :
  forall (questions : list str),
    length (extract_keywords questions) <= 10 /\
    Forall (fun e => mem (fst e) STOP_WORDS = false /\ 1 <= snd e)
           (extract_keywords questions).
Proof.
  intros questions. unfold extract_keywords. split.
  - apply most_common_length.
  - apply Forall_forall. intros e He. apply most_common_In in He.
    pose proof (@Counter_ok not_stop_word (fold_left keyword_step questions [])
                  (keyword_words_ok questions (Forall_nil _))) as H.
    rewrite Forall_forall in H. exact (H e He).
Qed.

(** ** Scenario E *)

(** C9: on the two questions of scenario E the summarizer returns the
    three words that are not stop words, each counted once, in the order
    in which they were first met. *)
Theorem scenario_E_keywords :
  extract_keywords [lit "Define normalization?"; lit "Explain indexing and keys?"]
  = [(lit "normalization", 1); (lit "indexing", 1); (lit "keys", 1)].
Proof. vm_compute. reflexivity. Qed.

(** ** The [analyze] route and unreadable documents *)

Lemma collect_candidates_unreadable (fs : storage) (before after : list str)
  (f : str) (candidates : list str) :
  (forall g, In g before -> fs (path_join UPLOAD_FOLDER g) <> None) ->
  fs (path_join UPLOAD_FOLDER f) = None ->
  collect_candidates fs (before ++ f :: after) candidates
  = raise (DocumentReadError (path_join UPLOAD_FOLDER f)).
Proof.
  revert candidates. induction before as [|g before IH]; intros candidates Hb Hf.
  - simpl. unfold extract_text_from_pdf. rewrite Hf. reflexivity.
  - simpl. unfold extract_text_from_pdf at 1.
    destruct (fs (path_join UPLOAD_FOLDER g)) as [pages|] eqn:E.
    + simpl. apply IH; [|assumption].
      intros g' Hg'. apply Hb. now right.
    + exfalso. apply (Hb g); [now left | assumption].
Qed.

Lemma collect_candidates_readable (fs : storage) (selected candidates : list str) :
  (forall g, In g selected -> fs (path_join UPLOAD_FOLDER g) <> None) ->
  exists cs, collect_candidates fs selected candidates = ret cs.
Proof.
  revert candidates. induction selected as [|g selected IH]; intros candidates H.
  - now exists candidates.
  - simpl. unfold extract_text_from_pdf at 1.
    destruct (fs (path_join UPLOAD_FOLDER g)) as [pages|] eqn:E.
    + simpl. apply IH. intros g' Hg'. apply H. now right.
    + exfalso. apply (H g); [now left | assumption].
Qed.

(** When every selected document can be read, the request is answered
    with the results view. *)
Lemma analyze_all_readable (fs : storage) (post : str -> reply)
  (selected : list str) :
  selected <> [] ->
  (forall g, In g selected -> fs (path_join UPLOAD_FOLDER g) <> None) ->
  exists cs,
    collect_candidates fs selected [] = ret cs /\
    analyze fs post selected
    = ret (Render (lit "result.html") (ai_clean_questions post cs)
             (extract_keywords (ai_clean_questions post cs))).
Proof.
  intros Hne H. destruct (collect_candidates_readable fs selected [] H) as [cs E].
  exists cs. split; [assumption|].
  unfold analyze. destruct selected; [contradiction|].
  rewrite E. reflexivity.
Qed.

(** With [bad.pdf] unreadable and selected before [good.pdf], the request
    fails, where reading [bad.pdf] as empty text would have produced the
    results view. *)
Lemma analyze_unreadable_aborts :
  analyze storage_one_good post_timeout [lit "bad.pdf"; lit "good.pdf"]
  = raise (DocumentReadError (lit "uploads/bad.pdf")) /\
  analyze (unreadable_as_empty storage_one_good) post_timeout
          [lit "bad.pdf"; lit "good.pdf"]
  = ret (Render (lit "result.html") (force_questions tt)
           (extract_keywords (force_questions tt))).
Proof. split; vm_compute; reflexivity. Qed.

(** C3 (amended): a selected document that cannot be opened or parsed
    makes the text extractor raise, and [analyze] has no handler for it:
    the request fails with the read error of the first unreadable
    document, whatever was read before it and whatever is selected after
    it, and nothing is rendered. *)
Theorem analyze_fails_at_first_unreadable :
  forall (fs : storage) (post : str -> reply) (before after : list str) (f : str),
    (forall g, In g before -> fs (path_join UPLOAD_FOLDER g) <> None) ->
    fs (path_join UPLOAD_FOLDER f) = None ->
    analyze fs post (before ++ f :: after)
    = raise (DocumentReadError (path_join UPLOAD_FOLDER f)).
Proof.
  intros fs post before after f Hb Hf. unfold analyze.
  rewrite (collect_candidates_unreadable fs before after f [] Hb Hf).
  destruct (before ++ f :: after) eqn:E; [|reflexivity].
  destruct before; discriminate E.
Qed.

Lemma analyze_fails_at_first_unreadable_witness :
  analyze storage_one_good post_timeout
          ([lit "good.pdf"] ++ lit "bad.pdf" :: [lit "good.pdf"])
  = raise (DocumentReadError (path_join UPLOAD_FOLDER (lit "bad.pdf"))).
Proof.
  apply (analyze_fails_at_first_unreadable storage_one_good post_timeout
           [lit "good.pdf"] [lit "good.pdf"] (lit "bad.pdf")).
  - intros g [<- | []]. vm_compute. discriminate.
  - vm_compute. reflexivity.
Defined.

(** * Further properties *)

(** ** Candidate scanner *)

(** X1: a string is a candidate exactly when it is the normal form of a
    line of the text whose trimmed form has at least 25 characters and
    holds a question mark or starts, in any case, with one of the five
    verbs. *)
Theorem candidates_characterised :
  forall (text c : str),
    In c (extract_question_candidates text) <->
    exists line,
      In line (split_nl text) /\
      25 <= length (strip line) /\
      looks_like_question (strip line) = true /\
      c = normalize (strip line).
Proof.
  intros text c. rewrite extract_question_candidates_In. split.
  - intros [line [Hl Hc]]. exists line. split; [assumption|].
    now apply line_candidates_In.
  - intros [line (Hl & Hlen & Hq & ->)]. exists line. split; [assumption|].
    unfold line_candidates. apply Nat.ltb_ge in Hlen. rewrite Hlen, Hq.
    now left.
Qed.

(** X2: every candidate is in normal form: no lower-case letter directly
    before an upper-case one, no bullet or dash glyph, no whitespace other
    than single spaces (so no tab and no newline), and none at either
    end. *)
Theorem candidates_in_normal_form :
  forall (text : str), Forall normal (extract_question_candidates text).
Proof.
  intros text. apply Forall_forall. intros c Hc.
  apply extract_question_candidates_In in Hc. destruct Hc as [line [_ Hc]].
  apply line_candidates_In in Hc. destruct Hc as (_ & _ & ->).
  apply normalize_normal.
Qed.

(** X3: normalizing twice is normalizing once. *)
Theorem normalize_idempotent :
  forall (line : str), normalize (normalize line) = normalize line.
Proof. intros line. apply normal_normalize, normalize_normal. Qed.

(** X4: scanning the output of a second scan changes nothing: from the
    second scan on the candidate list is a fixed point. *)
Theorem second_scan_is_fixed :
  forall (text : str),
    let once := extract_question_candidates text in
    let twice := extract_question_candidates (join_nl once) in
    extract_question_candidates (join_nl twice) = twice.
Proof.
  intros text once twice. unfold twice, once.
  rewrite (extract_rescan (join_nl _)), extract_rescan. apply filter_filter.
Qed.

(** ** Text extractor and scanner together *)

Lemma split_nl_nonempty (s : str) : split_nl s <> [].
Proof.
  destruct s as [|c s]; simpl; [discriminate|].
  destruct (char_eqb c NL); [discriminate|].
  destruct (split_nl s); discriminate.
Qed.

(** A newline ends the last line before it. *)
Lemma split_nl_NL_app (x y : str) :
  split_nl (x ++ NL :: y) = split_nl x ++ split_nl y.
Proof.
  induction x as [|c x IH]; [reflexivity|].
  cbn [app split_nl]. destruct (char_eqb c NL).
  - now rewrite IH.
  - rewrite IH. destruct (split_nl x) as [|h r] eqn:E; [|reflexivity].
    now elim (split_nl_nonempty x).
Qed.

Lemma read_pages_from (pages : pdf) (acc : str) :
  fold_left
    (fun text t =>
       match t with
       | Some (c :: r) => text ++ (c :: r) ++ [NL]
       | _ => text
       end)
    pages acc
  = acc ++ flat_map page_text pages.
Proof.
  revert acc. induction pages as [|t pages IH]; intros acc; cbn [fold_left flat_map].
  - now rewrite app_nil_r.
  - rewrite IH. destruct t as [[|c r]|]; cbn [page_text];
      rewrite ?app_nil_l, <- ?app_assoc; reflexivity.
Qed.

Lemma extract_text_pages (fs : storage) (path : str) (pages : pdf) :
  fs path = Some pages ->
  extract_text_from_pdf fs path = ret (flat_map page_text pages).
Proof.
  intros H. unfold extract_text_from_pdf. rewrite H. f_equal.
  apply (read_pages_from pages []).
Qed.

Lemma split_nl_line_app (x y : str) :
  split_nl ((x ++ [NL]) ++ y) = split_nl x ++ split_nl y.
Proof. rewrite <- app_assoc. apply split_nl_NL_app. Qed.

(** The lines of a document are the lines of its pages, and one empty
    line at the end. *)
Lemma pages_lines (pages : pdf) (line : str) :
  In line (split_nl (flat_map page_text pages)) <->
  line = [] \/
  exists c r, In (Some (c :: r)) pages /\ In line (split_nl (c :: r)).
Proof.
  induction pages as [|t pages IH].
  - simpl. split; [intros [<- | []]; now left|].
    intros [-> | (c & r & [] & _)]. now left.
  - cbn [flat_map]. destruct t as [[|c r]|]; cbn [page_text].
    + rewrite app_nil_l, IH.
      split; (intros [H | (c & r & Hp & Hl)]; [now left|]);
        right; exists c, r; split; auto.
      * now right.
      * destruct Hp as [Hp | Hp]; [discriminate Hp | assumption].
    + rewrite split_nl_line_app, in_app_iff, IH. split.
      * intros [H | [H | (c' & r' & Hp & Hl)]]; [right | now left | right].
        -- exists c, r. split; [now left | assumption].
        -- exists c', r'. split; [now right | assumption].
      * intros [H | (c' & r' & [Hp | Hp] & Hl)]; [right; now left | |].
        -- injection Hp as <- <-. now left.
        -- right. right. now exists c', r'.
    + rewrite app_nil_l, IH.
      split; (intros [H | (c & r & Hp & Hl)]; [now left|]);
        right; exists c, r; split; auto.
      * now right.
      * destruct Hp as [Hp | Hp]; [discriminate Hp | assumption].
Qed.

(** X5: the candidates of a readable document are exactly the candidates
    of its pages: a page without text adds nothing, and no candidate is
    made of the end of one page and the start of the next. *)
Theorem document_candidates_by_page :
  forall (fs : storage) (path : str) (pages : pdf),
    fs path = Some pages ->
    exists text,
      extract_text_from_pdf fs path = ret text /\
      forall c,
        In c (extract_question_candidates text) <->
        exists t, In (Some t) pages /\ In c (extract_question_candidates t).
Proof.
  intros fs path pages H. exists (flat_map page_text pages).
  split; [now apply extract_text_pages|].
  intros c. rewrite extract_question_candidates_In. split.
  - intros [line [Hl Hc]]. apply pages_lines in Hl.
    destruct Hl as [-> | (c0 & r & Hp & Hl)]; [destruct Hc|].
    exists (c0 :: r). split; [assumption|].
    apply extract_question_candidates_In. now exists line.
  - intros [t [Hp Hc]]. apply extract_question_candidates_In in Hc.
    destruct Hc as [line [Hl Hc]]. exists line. split; [|assumption].
    apply pages_lines. destruct t as [|c0 r].
    + destruct Hl as [<- | []]. destruct Hc.
    + right. now exists c0, r.
Qed.

Lemma document_candidates_by_page_witness :
  exists text,
    extract_text_from_pdf storage_one_good (lit "uploads/good.pdf") = ret text /\
    forall c,
      In c (extract_question_candidates text) <->
      exists t,
        In (Some t)
           [Some (lit "What is the purpose of normalization in a database?")] /\
        In c (extract_question_candidates t).
Proof.
  apply (document_candidates_by_page storage_one_good (lit "uploads/good.pdf")).
  vm_compute. reflexivity.
Defined.

(** ** Template fallback over arbitrary tables *)

Lemma for_each_map {X Y S R : Type} (g : S -> Y -> S + R) (f : X -> Y)
  (xs : list X) (s : S) :
  for_each (fun s x => g s (f x)) xs s = for_each g (map f xs) s.
Proof.
  revert s. induction xs as [|x xs IH]; intros s; simpl; [reflexivity|].
  destruct (g s (f x)); [apply IH | reflexivity].
Qed.

Lemma for_each_app {X S R : Type} (g : S -> X -> S + R) (xs ys : list X) (s : S) :
  for_each g (xs ++ ys) s =
  match for_each g xs s with
  | inl s' => for_each g ys s'
  | inr v => inr v
  end.
Proof.
  revert s. induction xs as [|x xs IH]; intros s; simpl; [reflexivity|].
  destruct (g s x); [apply IH | reflexivity].
Qed.

Lemma for_each_flat_map {X Y S R : Type} (g : S -> Y -> S + R) (f : X -> list Y)
  (xs : list X) (s : S) :
  for_each (fun s x => for_each g (f x) s) xs s = for_each g (flat_map f xs) s.
Proof.
  revert s. induction xs as [|x xs IH]; intros s; simpl; [reflexivity|].
  rewrite for_each_app. destruct (for_each g (f x) s); [apply IH | reflexivity].
Qed.

(** The two nested loops are one loop over the formatted questions. *)
Lemma nested_loops_flat (tps tms : list str) (st : fq_state) :
  for_each (fun st topic => for_each (template_step topic) tms st) tps st
  = for_each question_step (cross_product tps tms) st.
Proof.
  unfold cross_product. rewrite <- for_each_flat_map.
  revert st. induction tps as [|topic tps IH]; intros st; simpl; [reflexivity|].
  rewrite <- for_each_map.
  change (fun s x => question_step s (format x topic)) with (template_step topic).
  destruct (for_each (template_step topic) tms st); [apply IH | reflexivity].
Qed.

Lemma add_keys_prefix (l acc : list str) :
  exists ext, fold_left add_key l acc = acc ++ ext.
Proof.
  revert acc. induction l as [|k l IH]; intros acc; simpl.
  - exists []. now rewrite app_nil_r.
  - unfold add_key at 2. destruct (mem k acc); [apply IH|].
    destruct (IH (acc ++ [k])) as [ext E]. exists (k :: ext).
    now rewrite E, <- app_assoc.
Qed.

Lemma firstn_length_app {X : Type} (l ext : list X) :
  firstn (length l) (l ++ ext) = l.
Proof.
  rewrite firstn_app, Nat.sub_diag, firstn_all. simpl. apply app_nil_r.
Qed.

Lemma mem_same (x : str) (l l' : list str) :
  (forall y, In y l <-> In y l') -> mem x l = mem x l'.
Proof.
  intros H. apply bool_eq_iff. rewrite !mem_In. apply H.
Qed.

Lemma question_step_add_key (final used : list str) (q : str) :
  (forall x, In x used <-> In x final) ->
  question_step (final, used) q =
  if 12 <=? length (add_key final q)
  then inr (add_key final q)
  else inl (add_key final q, if mem q final then used else q :: used).
Proof.
  intros Hu. unfold question_step, add_key. rewrite (@mem_same q used final Hu).
  now destruct (mem q final).
Qed.

Lemma add_key_used (final used : list str) (q : str) :
  (forall x, In x used <-> In x final) ->
  forall x, In x (if mem q final then used else q :: used) <->
            In x (add_key final q).
Proof.
  intros Hu x. unfold add_key. destruct (mem q final); [apply Hu|].
  simpl. rewrite in_app_iff, Hu. simpl. tauto.
Qed.

Lemma add_key_length (final : list str) (q : str) :
  length (add_key final q) <= S (length final).
Proof.
  unfold add_key. destruct (mem q final); [lia|].
  rewrite length_app. simpl. lia.
Qed.

(** The loop collects the distinct questions in order and leaves with the
    first twelve as soon as there are twelve. *)
Lemma question_loop (qs : list str) :
  forall final used,
    (forall x, In x used <-> In x final) ->
    length final < 12 ->
    match for_each question_step qs (final, used) with
    | inr r =>
        12 <= length (fold_left add_key qs final) /\
        r = firstn 12 (fold_left add_key qs final)
    | inl (final', _) =>
        length final' < 12 /\ final' = fold_left add_key qs final
    end.
Proof.
  induction qs as [|q qs IH]; intros final used Hu Hlen.
  - simpl. split; [assumption | reflexivity].
  - cbn [for_each fold_left]. rewrite (@question_step_add_key final used q Hu).
    pose proof (add_key_length final q) as Hk.
    destruct (12 <=? length (add_key final q)) eqn:E12.
    + apply Nat.leb_le in E12.
      destruct (add_keys_prefix qs (add_key final q)) as [ext E]. rewrite E.
      assert (L : length (add_key final q) = 12) by lia.
      split; [rewrite length_app; lia|].
      rewrite <- L at 1. now rewrite firstn_length_app.
    + apply Nat.leb_gt in E12. apply IH; [|assumption].
      exact (@add_key_used final used q Hu).
Qed.

Lemma force_questions_of_eq (tps tms : list str) :
  force_questions_of tps tms =
  let all := dict_fromkeys (cross_product tps tms) in
  if 12 <=? length all then firstn 12 all else firstn 10 all.
Proof.
  unfold force_questions_of. rewrite nested_loops_flat.
  pose proof (question_loop (cross_product tps tms) [] []) as H.
  specialize (H ltac:(intros x; tauto) ltac:(simpl; lia)).
  fold (dict_fromkeys (cross_product tps tms)) in H. cbv zeta.
  destruct (for_each question_step (cross_product tps tms) ([], []))
    as [[final used]|r].
  - destruct H as [H ->].
    destruct (12 <=? length (dict_fromkeys (cross_product tps tms))) eqn:E;
      [apply Nat.leb_le in E; lia | reflexivity].
  - destruct H as [H ->]. apply Nat.leb_le in H. now rewrite H.
Qed.

Lemma format_simple (t arg : str) :
  simple_template t = true ->
  exists pre post,
    t = pre ++ 123%N :: 125%N :: post /\
    forallb (fun c => negb (is_brace c)) (pre ++ post) = true /\
    format t arg = pre ++ arg ++ post.
Proof.
  induction t as [|a r IH]; [discriminate|].
  cbn [simple_template]. destruct (N.eqb_spec a 123) as [->|Ha].
  - destruct r as [|b r']; [discriminate|].
    rewrite andb_true_iff, N.eqb_eq. intros [-> H].
    exists [], r'. repeat split; assumption.
  - rewrite andb_true_iff, negb_true_iff. intros [Hb H].
    destruct (IH H) as (pre & post & -> & Hf & E).
    exists (a :: pre), post. repeat split.
    + cbn [app forallb]. rewrite Hf, andb_true_r. unfold is_brace.
      apply N.eqb_neq in Ha. now rewrite Ha, Hb.
    + cbn [app] in *. destruct pre as [|x pre];
        cbn [app format char_eqb] in *; unfold char_eqb in *.
      * apply N.eqb_neq in Ha. rewrite Ha. cbn [andb]. now rewrite E.
      * apply N.eqb_neq in Ha. rewrite Ha. cbn [andb]. now rewrite E.
Qed.

Example templates_are_simple : forallb simple_template templates = true.
Proof. vm_compute. reflexivity. Qed.

(** X6: over any topics and any templates with one replacement field,
    the generator collects the distinct formatted questions in loop
    order; with twelve or more of them it returns the first twelve, with
    fewer it returns the first ten of them (so with eleven distinct
    questions one is lost). *)
Theorem force_questions_of_characterised :
  forall (tps tms : list str),
    Forall (fun t => simple_template t = true) tms ->
    force_questions_of tps tms =
    let all := dict_fromkeys (cross_product tps tms) in
    if 12 <=? length all then firstn 12 all else firstn 10 all.
Proof. intros tps tms _. apply force_questions_of_eq. Qed.

Lemma force_questions_of_characterised_witness :
  force_questions_of
    (map lit ["a"; "b"; "c"; "d"; "e"; "f"; "g"; "h"; "i"; "j"; "k"]%string)
    [lit "Define {}?"] =
  let all :=
    dict_fromkeys
      (cross_product
         (map lit ["a"; "b"; "c"; "d"; "e"; "f"; "g"; "h"; "i"; "j"; "k"]%string)
         [lit "Define {}?"]) in
  if 12 <=? length all then firstn 12 all else firstn 10 all.
Proof.
  apply (@force_questions_of_characterised
           (map lit ["a"; "b"; "c"; "d"; "e"; "f"; "g"; "h"; "i"; "j"; "k"]%string)
           [lit "Define {}?"]).
  constructor; [reflexivity | constructor].
Defined.

Lemma NoDup_firstn {X : Type} (n : nat) (l : list X) :
  NoDup l -> NoDup (firstn n l).
Proof.
  intros H. rewrite <- (firstn_skipn n l) in H.
  now apply NoDup_app_remove_r in H.
Qed.

Lemma force_questions_of_distinct (tps tms : list str) :
  NoDup (force_questions_of tps tms).
Proof.
  rewrite force_questions_of_eq. cbv zeta.
  destruct (12 <=? _); apply NoDup_firstn, dict_fromkeys_NoDup.
Qed.

(** X7: over any topics and any templates with one replacement field,
    the generator returns at most twelve questions, no question twice,
    and each of them is a template of the table formatted with a topic of
    the table. *)
Theorem force_questions_of_sound :
  forall (tps tms : list str),
    Forall (fun t => simple_template t = true) tms ->
    length (force_questions_of tps tms) <= 12 /\
    NoDup (force_questions_of tps tms) /\
    Forall (fun q => exists topic t,
                In topic tps /\ In t tms /\ q = format t topic)
           (force_questions_of tps tms).
Proof.
  intros tps tms _. split; [apply force_questions_of_length|].
  split; [apply force_questions_of_distinct|].
  apply Forall_forall. intros q Hq. rewrite force_questions_of_eq in Hq.
  cbv zeta in Hq.
  assert (H : In q (cross_product tps tms)).
  { apply dict_fromkeys_In. destruct (12 <=? _); now apply In_firstn in Hq. }
  unfold cross_product in H. apply in_flat_map in H.
  destruct H as [topic [Ht H]]. apply in_map_iff in H.
  destruct H as [t [<- Hm]]. now exists topic, t.
Qed.

Lemma force_questions_of_sound_witness :
  length (force_questions_of topics templates) <= 12 /\
  NoDup (force_questions_of topics templates) /\
  Forall (fun q => exists topic t,
              In topic topics /\ In t templates /\ q = format t topic)
         (force_questions_of topics templates).
Proof.
  apply (@force_questions_of_sound topics templates).
  apply Forall_forall. intros t Ht.
  pose proof templates_are_simple as H. rewrite forallb_forall in H.
  now apply H.
Defined.

(** Eleven distinct questions: ten are returned. *)
Example eleven_questions_give_ten :
  length (dict_fromkeys
            (cross_product
               (map lit ["a"; "b"; "c"; "d"; "e"; "f"; "g"; "h"; "i"; "j"; "k"]%string)
               [lit "Define {}?"])) = 11 /\
  length (force_questions_of
            (map lit ["a"; "b"; "c"; "d"; "e"; "f"; "g"; "h"; "i"; "j"; "k"]%string)
            [lit "Define {}?"]) = 10.
Proof. split; vm_compute; reflexivity. Qed.

(** ** Question refiner *)

Lemma lower_at_clean (before : str) (c : char) (after : str) :
  c <> QM /\ c <> NL ->
  Forall (fun x => x <> QM /\ x <> NL) (lower_at before c after).
Proof.
  intros [H1 H2]. apply Forall_and; [now apply lower_at_QM|].
  exact (space_piece_NL c _ (lower_at_space before c after) H2).
Qed.

Lemma capitalize_clean (q : str) :
  Forall (fun c => c <> QM /\ c <> NL) q ->
  Forall (fun c => c <> QM /\ c <> NL) (capitalize q).
Proof.
  destruct 1 as [|c t [Hc1 Hc2] Ht]; cbn [capitalize]; [constructor|].
  apply Forall_app. split.
  - apply Forall_and; [now apply to_title_full_QM|].
    exact (space_piece_NL c _ (to_title_full_space c) Hc2).
  - apply (lower_from_Forall (fun c => c <> QM /\ c <> NL)
             (fun c => c <> QM /\ c <> NL));
      [intros b x a; apply lower_at_clean | exact Ht].
Qed.

(** A capitalized string starts with a character that is neither
    whitespace nor a letter of [[a-z]], when the string does not start
    with whitespace. *)
Lemma capitalize_starts (q : str) :
  starts_nonspace q = true -> starts_capitalized (capitalize q) = true.
Proof.
  destruct q as [|c t]; [discriminate|]. cbn [starts_nonspace capitalize].
  intros Hc. apply negb_true_iff in Hc.
  pose proof (to_title_full_space c) as [_ Hns].
  pose proof (to_title_full_head c) as Hh.
  destruct (Hns Hc) as [Hne Hall].
  destruct (to_title_full c) as [|x T]; [now elim Hne|].
  inversion Hall as [|? ? Hx _]; subst.
  cbn [app starts_capitalized]. rewrite Hx. unfold head_entry in Hh.
  now rewrite is_lower_ranges, Hh.
Qed.

(** The fragments of [re.split] hold neither question mark nor newline. *)
Lemma re_split_from_clean (s : str) :
  forall (skipping : bool) (cur : str),
    Forall (fun c => c <> QM /\ c <> NL) cur ->
    Forall (Forall (fun c => c <> QM /\ c <> NL)) (re_split_from skipping cur s).
Proof.
  induction s as [|c s IH]; intros skipping cur H; simpl.
  - constructor; [now apply Forall_rev | constructor].
  - destruct (skipping && isspace c); [now apply IH|].
    unfold char_eqb.
    destruct (N.eqb_spec c NL).
    + constructor; [now apply Forall_rev | apply IH; constructor].
    + destruct (N.eqb_spec c QM).
      * constructor; [now apply Forall_rev | apply IH; constructor].
      * apply IH. constructor; [split|]; assumption.
Qed.

Section RefinedShape.

(** A property of every finished question, shown from what is known of a
    trimmed fragment. *)
Variable P : str -> Prop.
Hypothesis finish_shape :
  forall q, Forall (fun c => c <> QM /\ c <> NL) q ->
            q = [] \/ starts_nonspace q = true ->
            q = [] \/ ends_nonspace q = true ->
            6 <= word_count q <= 18 ->
            P (finish_question q).

Lemma refine_step_shape (final : list str) (f : str) :
  Forall (fun c => c <> QM /\ c <> NL) f ->
  Forall P final -> Forall P (refine_step final f).
Proof.
  intros Hf Hfinal. unfold refine_step.
  destruct ((6 <=? length (split_ws (strip f))) &&
            (length (split_ws (strip f)) <=? 18)) eqn:E; [|assumption].
  apply andb_true_iff in E. destruct E as [E1 E2].
  apply Nat.leb_le in E1, E2.
  apply Forall_app. split; [assumption|]. constructor; [|constructor].
  apply finish_shape.
  - now apply strip_Forall.
  - apply strip_starts_nonspace.
  - apply strip_ends_nonspace.
  - unfold word_count. lia.
Qed.

Lemma kept_fragments_shape (raw : str) : Forall P (kept_fragments raw).
Proof.
  unfold kept_fragments, re_split.
  assert (H : Forall (Forall (fun c => c <> QM /\ c <> NL))
                (re_split_from false [] raw))
    by (apply re_split_from_clean; constructor).
  revert H. generalize (re_split_from false [] raw) as frags.
  assert (G : forall frags final,
             Forall (Forall (fun c => c <> QM /\ c <> NL)) frags ->
             Forall P final -> Forall P (fold_left refine_step frags final)).
  { intros frags final H. revert final.
    induction H as [|f frags Hf _ IH]; intros final Hfinal; simpl;
      [assumption | apply IH; now apply refine_step_shape]. }
  intros frags H. apply G; [assumption | constructor].
Qed.

Lemma try_rewrite_shape (post : str -> reply) (prompt : str) (final : list str) :
  try_rewrite post prompt = ret (Some final) -> Forall P final.
Proof.
  intros H. apply try_rewrite_return in H.
  destruct H as (d & rest & raw & _ & _ & -> & _).
  apply Forall_forall. intros q Hq.
  apply (proj1 (dict_fromkeys_In _ _)) in Hq.
  pose proof (kept_fragments_shape raw) as HF.
  rewrite Forall_forall in HF. exact (HF q Hq).
Qed.

End RefinedShape.

Lemma finish_question_one_line (q : str) :
  Forall (fun c => c <> QM /\ c <> NL) q ->
  q = [] \/ starts_nonspace q = true ->
  q = [] \/ ends_nonspace q = true ->
  6 <= word_count q <= 18 ->
  one_line_question (finish_question q).
Proof.
  intros Hq Hs _ Hw.
  assert (Hqm : Forall (fun c => c <> QM) q)
    by (eapply Forall_impl; [|exact Hq]; intros c Hc; apply Hc).
  rewrite (finish_question_no_QM Hqm).
  exists (capitalize q). split; [reflexivity|].
  split; [now apply capitalize_clean|].
  destruct Hs as [-> | Hs]; [vm_compute in Hw; lia|].
  now apply capitalize_starts.
Qed.

(** X8: when the rewrite output is accepted, every returned question is
    one line: a body that holds neither [?] nor newline and starts with a
    character that is neither whitespace nor a lower-case letter,
    followed by a single [?]. *)
Theorem refined_questions_one_line :
  forall (post : str -> reply) (seed_questions final : list str),
    try_rewrite post (build_prompt (join_nl (firstn 10 seed_questions)))
    = ret (Some final) ->
    Forall one_line_question (ai_clean_questions post seed_questions).
Proof.
  intros post seed_questions final H.
  unfold ai_clean_questions. rewrite H.
  exact (@try_rewrite_shape _ finish_question_one_line _ _ _ H).
Qed.

Lemma refined_questions_one_line_witness :
  Forall one_line_question (ai_clean_questions post_refined []).
Proof.
  apply (refined_questions_one_line post_refined [] (final := refined_expected)).
  vm_compute. reflexivity.
Defined.

Lemma ai_clean_questions_size (post : str -> reply) (seed_questions : list str) :
  5 <= length (ai_clean_questions post seed_questions) /\
  NoDup (ai_clean_questions post seed_questions).
Proof.
  unfold ai_clean_questions.
  destruct (try_rewrite post (build_prompt (join_nl (firstn 10 seed_questions))))
    as [e|[final|]] eqn:E.
  - split; [rewrite force_questions_value; simpl; lia|].
    apply force_questions_of_distinct.
  - apply try_rewrite_return in E. destruct E as (d & rest & raw & _ & _ & -> & L).
    split; [exact L | apply dict_fromkeys_NoDup].
  - split; [rewrite force_questions_value; simpl; lia|].
    apply force_questions_of_distinct.
Qed.

(** X9: whatever the service does and whatever the seeds are,
    [ai_clean_questions] returns at least five questions and no question
    twice. *)
Theorem ai_clean_questions_five_distinct :
  forall (post : str -> reply) (seed_questions : list str),
    5 <= length (ai_clean_questions post seed_questions) /\
    NoDup (ai_clean_questions post seed_questions).
Proof. exact ai_clean_questions_size. Qed.

(** X10: only the first ten seed candidates are read: the result is the
    same when the others are dropped. *)
Theorem ai_clean_questions_first_ten :
  forall (post : str -> reply) (seed_questions : list str),
    ai_clean_questions post seed_questions
    = ai_clean_questions post (firstn 10 seed_questions).
Proof.
  intros post seed_questions. unfold ai_clean_questions.
  rewrite firstn_firstn. reflexivity.
Qed.

(** ** Keyword summarizer *)

Lemma insert_desc_descending (x : str * nat) (l : list (str * nat)) :
  descending l -> descending (insert_desc x l).
Proof.
  induction l as [|y r IH]; intros H; simpl.
  - split; constructor.
  - destruct H as [Hy Hr]. destruct (snd x <? snd y) eqn:E.
    + apply Nat.ltb_lt in E. simpl. split; [|now apply IH].
      apply Forall_forall. intros z Hz. apply insert_desc_In in Hz.
      destruct Hz as [-> | Hz]; [lia|].
      rewrite Forall_forall in Hy. now apply Hy.
    + apply Nat.ltb_ge in E. simpl. repeat split; try assumption.
      constructor; [assumption|].
      eapply Forall_impl; [|exact Hy]. simpl. intros z Hz. lia.
Qed.

Lemma sorted_desc_descending (l : list (str * nat)) : descending (sorted_desc l).
Proof.
  induction l as [|x l IH]; simpl; [exact I | now apply insert_desc_descending].
Qed.

Lemma descending_app (l1 l2 : list (str * nat)) :
  descending (l1 ++ l2) ->
  descending l1 /\ forall a b, In a l1 -> In b l2 -> snd b <= snd a.
Proof.
  induction l1 as [|x l1 IH]; simpl.
  - intros _. split; [exact I | intros a b []].
  - intros [Hx H]. destruct (IH H) as [H1 H2]. apply Forall_app in Hx.
    destruct Hx as [Hx1 Hx2]. repeat split; try assumption.
    intros a b [<- | Ha] Hb; [|now apply H2].
    rewrite Forall_forall in Hx2. now apply Hx2.
Qed.

(** X12: the returned entries are in order of count, largest first. *)
Theorem extract_keywords_descending :
  forall (questions : list str), descending (extract_keywords questions).
Proof.
  intros questions. unfold extract_keywords, most_common.
  pose proof (sorted_desc_descending
                (Counter (fold_left keyword_step questions []))) as H.
  rewrite <- (firstn_skipn 10) in H. now apply descending_app in H.
Qed.

(** X13: every tallied word is returned or has a count that is no larger
    than the count of every returned word. *)
Theorem extract_keywords_most_common :
  forall (questions : list str),
    Forall (fun e' =>
              In e' (extract_keywords questions) \/
              Forall (fun e => snd e' <= snd e) (extract_keywords questions))
           (Counter (keyword_words questions)).
Proof.
  intros questions. apply Forall_forall. intros e' He'.
  unfold extract_keywords, most_common.
  fold (keyword_words questions).
  pose proof (sorted_desc_descending (Counter (keyword_words questions))) as H.
  apply sorted_desc_In in He'.
  rewrite <- (firstn_skipn 10) in H, He'. apply descending_app in H.
  destruct H as [_ H]. apply in_app_iff in He'.
  destruct He' as [He' | He']; [now left | right].
  apply Forall_forall. intros e He. now apply H.
Qed.

Lemma filter_insert_desc (k : nat) (x : str * nat) (l : list (str * nat)) :
  filter (fun e => snd e =? k) (insert_desc x l)
  = filter (fun e => snd e =? k) (x :: l).
Proof.
  induction l as [|y r IH]; [reflexivity|].
  cbn [insert_desc]. destruct (snd x <? snd y) eqn:E; [|reflexivity].
  apply Nat.ltb_lt in E. cbn [filter] in *. rewrite IH.
  destruct (snd y =? k) eqn:Ey, (snd x =? k) eqn:Ex; try reflexivity.
  apply Nat.eqb_eq in Ey, Ex. lia.
Qed.

Lemma filter_sorted_desc (k : nat) (l : list (str * nat)) :
  filter (fun e => snd e =? k) (sorted_desc l) = filter (fun e => snd e =? k) l.
Proof.
  induction l as [|x l IH]; [reflexivity|].
  cbn [sorted_desc]. rewrite filter_insert_desc. cbn [filter]. now rewrite IH.
Qed.

Lemma str_eqb_sym (a b : str) : str_eqb a b = str_eqb b a.
Proof. apply bool_eq_iff. rewrite !str_eqb_eq. split; congruence. Qed.

(** The keys of a [Counter] are inserted as the keys of a dict are. *)
Lemma counter_add_keys (w : str) (c : list (str * nat)) :
  map fst (counter_add w c) = add_key (map fst c) w.
Proof.
  unfold add_key. induction c as [|[k n] r IH]; [reflexivity|].
  cbn [counter_add map fst mem existsb]. fold (mem w (map fst r)).
  rewrite (str_eqb_sym w k). destruct (str_eqb k w); [reflexivity|].
  cbn [map fst orb]. rewrite IH. now destruct (mem w (map fst r)).
Qed.

Lemma Counter_from_keys (words : list str) (c : list (str * nat)) :
  map fst (fold_left (fun c w => counter_add w c) words c)
  = fold_left add_key words (map fst c).
Proof.
  revert c. induction words as [|w words IH]; intros c; [reflexivity|].
  cbn [fold_left]. now rewrite IH, counter_add_keys.
Qed.

Lemma Counter_keys (words : list str) :
  map fst (Counter words) = dict_fromkeys words.
Proof. apply (Counter_from_keys words []). Qed.

(** X14: the tally lists the words in the order in which they are first
    met, and among the returned entries those of one count keep that
    order: they are the first entries of that count in the tally. *)
Theorem extract_keywords_first_seen_ties :
  forall (questions : list str),
    map fst (Counter (keyword_words questions))
    = dict_fromkeys (keyword_words questions) /\
    forall k, exists rest,
      filter (fun e => snd e =? k) (Counter (keyword_words questions))
      = filter (fun e => snd e =? k) (extract_keywords questions) ++ rest.
Proof.
  intros questions. split; [apply Counter_keys|].
  intros k. unfold extract_keywords, most_common.
  fold (keyword_words questions).
  exists (filter (fun e => snd e =? k)
            (skipn 10 (sorted_desc (Counter (keyword_words questions))))).
  rewrite <- filter_app, firstn_skipn. symmetry. apply filter_sorted_desc.
Qed.

Lemma tally_of_counter_add (k w : str) (c : list (str * nat)) :
  tally_of k (counter_add w c)
  = tally_of k c + (if str_eqb w k then 1 else 0).
Proof.
  induction c as [|[k' n] r IH]; [simpl; now destruct (str_eqb w k)|].
  cbn [counter_add]. destruct (str_eqb k' w) eqn:Ew.
  - apply str_eqb_eq in Ew. subst k'. cbn [tally_of].
    destruct (str_eqb w k); lia.
  - cbn [tally_of]. destruct (str_eqb k' k) eqn:Ek; [|exact IH].
    apply str_eqb_eq in Ek. subst k'. rewrite (str_eqb_sym w k), Ew. lia.
Qed.

Lemma tally_of_Counter_from (k : str) (words : list str) (c : list (str * nat)) :
  tally_of k (fold_left (fun c w => counter_add w c) words c)
  = tally_of k c + occurrences k words.
Proof.
  revert c. induction words as [|w words IH]; intros c; cbn [fold_left occurrences].
  - lia.
  - rewrite IH, tally_of_counter_add. lia.
Qed.

Lemma tally_of_entry (k : str) (n : nat) (c : list (str * nat)) :
  NoDup (map fst c) -> In (k, n) c -> tally_of k c = n.
Proof.
  induction c as [|[k' n'] r IH]; [intros _ []|].
  cbn [map fst tally_of]. intros Hnd [H | H].
  - injection H as -> ->. now rewrite str_eqb_refl.
  - inversion Hnd as [|? ? Hk' Hr]; subst.
    destruct (str_eqb k' k) eqn:E; [|now apply IH].
    apply str_eqb_eq in E. subst k'. elim Hk'.
    apply in_map_iff. now exists (k, n).
Qed.

Lemma sorted_desc_Permutation (l : list (str * nat)) :
  Permutation (sorted_desc l) l.
Proof.
  assert (I : forall x l, Permutation (insert_desc x l) (x :: l)).
  { intros x l0. induction l0 as [|y r IH]; simpl; [reflexivity|].
    destruct (snd x <? snd y); [|reflexivity].
    rewrite IH. apply perm_swap. }
  induction l as [|x l IH]; simpl; [reflexivity|].
  rewrite I. now constructor.
Qed.

(** X15: no word is returned twice, and the count returned with a word is
    the number of times the word is found in the questions. *)
Theorem extract_keywords_counts_exact :
  forall (questions : list str),
    NoDup (map fst (extract_keywords questions)) /\
    Forall (fun e => snd e = occurrences (fst e) (keyword_words questions))
           (extract_keywords questions).
Proof.
  intros questions. unfold extract_keywords. fold (keyword_words questions).
  assert (Hk : NoDup (map fst (Counter (keyword_words questions))))
    by (rewrite Counter_keys; apply dict_fromkeys_NoDup).
  split.
  - unfold most_common. rewrite <- firstn_map. apply NoDup_firstn.
    eapply Permutation_NoDup; [|exact Hk].
    apply Permutation_map. symmetry. apply sorted_desc_Permutation.
  - apply Forall_forall. intros [k n] He. apply most_common_In in He.
    simpl. rewrite <- (@tally_of_entry k n _ Hk He).
    apply (tally_of_Counter_from k (keyword_words questions) []).
Qed.

Lemma emit_run_shape (cur : str) :
  Forall (fun c => is_lower c = true) cur -> Forall keyword_shape (emit_run cur).
Proof.
  intros H. unfold emit_run. destruct (4 <=? length cur) eqn:E; [|constructor].
  apply Nat.leb_le in E. constructor; [|constructor]. split.
  - now rewrite length_rev.
  - now apply Forall_rev.
Qed.

Lemma findall_from_shape (s : str) :
  Forall (fun c => is_upper c = false) s ->
  forall cur, Forall (fun c => is_lower c = true) cur ->
    Forall keyword_shape (findall_from cur s).
Proof.
  induction 1 as [|c s Hc _ IH]; intros cur Hcur; simpl.
  - now apply emit_run_shape.
  - unfold is_alpha. rewrite Hc, orb_false_r.
    destruct (is_lower c) eqn:E.
    + apply IH. now constructor.
    + apply Forall_app. split; [now apply emit_run_shape | apply IH; constructor].
Qed.

Lemma findall_lower_shape (q : str) :
  Forall keyword_shape (findall_words (lower q)).
Proof.
  apply findall_from_shape; [|constructor].
  apply lower_from_not_upper.
Qed.

Lemma keyword_words_shape (questions : list str) :
  Forall keyword_shape (keyword_words questions).
Proof.
  unfold keyword_words.
  assert (G : forall ws words, Forall keyword_shape ws -> Forall keyword_shape words ->
             Forall keyword_shape
               (fold_left (fun words w =>
                             if negb (mem w STOP_WORDS) then words ++ [w] else words)
                          ws words)).
  { induction ws as [|w ws IH]; intros words Hws Hwords; cbn [fold_left];
      [assumption|].
    inversion Hws; subst. apply IH; [assumption|].
    destruct (negb (mem w STOP_WORDS)); [|assumption].
    apply Forall_app. split; [assumption|].
    constructor; [assumption | constructor]. }
  generalize (@nil str) (Forall_nil keyword_shape).
  induction questions as [|q qs IH]; intros words H; cbn [fold_left];
    [assumption|].
  apply IH. unfold keyword_step. apply G; [apply findall_lower_shape | assumption].
Qed.

(** X16: every returned word has at least four characters, all of them
    lower-case letters of [[a-z]]: digits and punctuation never reach the
    tally, and capitals only lower-cased. *)
Theorem extract_keywords_word_shape :
  forall (questions : list str),
    Forall (fun e => keyword_shape (fst e)) (extract_keywords questions).
Proof.
  intros questions. apply Forall_forall. intros e He.
  unfold extract_keywords in He. apply most_common_In in He.
  pose proof (@Counter_ok keyword_shape (keyword_words questions)
                (keyword_words_shape questions)) as H.
  rewrite Forall_forall in H. exact (proj1 (H e He)).
Qed.

(** ** The [analyze] route *)

Lemma collect_candidates_eq (fs : storage) (selected candidates : list str) :
  (forall g, In g selected -> fs (path_join UPLOAD_FOLDER g) <> None) ->
  collect_candidates fs selected candidates
  = ret (candidates ++ flat_map (document_candidates fs) selected).
Proof.
  revert candidates. induction selected as [|g selected IH]; intros candidates H.
  - simpl. now rewrite app_nil_r.
  - cbn [collect_candidates flat_map]. unfold document_candidates at 1.
    assert (Hg : fs (path_join UPLOAD_FOLDER g) <> None) by (apply H; now left).
    unfold extract_text_from_pdf at 1 2.
    destruct (fs (path_join UPLOAD_FOLDER g)) as [pages|]; [|contradiction].
    cbn [bind ret]. rewrite IH by (intros g' Hg'; apply H; now right).
    now rewrite app_assoc.
Qed.

(** X17: when every selected document can be read, the seed of the
    refiner is the candidates of the documents one after the other, in
    the order of selection and with the duplicates that two documents
    share; the answer is the results view with the refined questions and
    their keywords. *)
Theorem analyze_renders_selected :
  forall (fs : storage) (post : str -> reply) (selected : list str),
    selected <> [] ->
    (forall g, In g selected -> fs (path_join UPLOAD_FOLDER g) <> None) ->
    let questions :=
      ai_clean_questions post (flat_map (document_candidates fs) selected) in
    analyze fs post selected
    = ret (Render (lit "result.html") questions (extract_keywords questions)).
Proof.
  intros fs post selected Hne H questions. unfold analyze.
  destruct selected as [|f rest]; [contradiction|].
  rewrite (@collect_candidates_eq fs (f :: rest) [] H). reflexivity.
Qed.

Lemma analyze_renders_selected_witness :
  analyze storage_one_good post_timeout [lit "good.pdf"; lit "good.pdf"]
  = ret (Render (lit "result.html")
           (ai_clean_questions post_timeout
              (flat_map (document_candidates storage_one_good)
                 [lit "good.pdf"; lit "good.pdf"]))
           (extract_keywords
              (ai_clean_questions post_timeout
                 (flat_map (document_candidates storage_one_good)
                    [lit "good.pdf"; lit "good.pdf"])))).
Proof.
  apply (@analyze_renders_selected storage_one_good post_timeout
           [lit "good.pdf"; lit "good.pdf"]).
  - discriminate.
  - intros g [<- | [<- | []]]; vm_compute; discriminate.
Defined.

(** The same document selected twice gives its candidates twice. *)
Example candidates_not_merged_across_documents :
  flat_map (document_candidates storage_one_good) [lit "good.pdf"; lit "good.pdf"]
  = [lit "What is the purpose of normalization in a database?";
     lit "What is the purpose of normalization in a database?"].
Proof. vm_compute. reflexivity. Qed.

(** X18: an answer of [analyze] is the redirect to the upload view, for
    an empty selection only, or the results view with at least five
    questions, none of them twice, and with the keywords of exactly these
    questions. *)
Theorem analyze_answer :
  forall (fs : storage) (post : str -> reply) (selected : list str) (r : response),
    analyze fs post selected = ret r ->
    (selected = [] /\ r = Redirect (lit "upload")) \/
    (selected <> [] /\
     exists questions,
       r = Render (lit "result.html") questions (extract_keywords questions) /\
       5 <= length questions /\ NoDup questions).
Proof.
  intros fs post selected r H. unfold analyze in H.
  destruct selected as [|f rest].
  - left. injection H as <-. now split.
  - right. split; [discriminate|].
    destruct (collect_candidates fs (f :: rest) []) as [e|cs]; [discriminate H|].
    cbn [bind ret] in H. injection H as <-.
    exists (ai_clean_questions post cs). split; [reflexivity|].
    apply ai_clean_questions_size.
Qed.

Lemma analyze_answer_witness :
  ([lit "good.pdf"] = [] /\
   Render (lit "result.html") (force_questions tt)
          (extract_keywords (force_questions tt))
   = Redirect (lit "upload")) \/
  ([lit "good.pdf"] <> [] /\
   exists questions,
     Render (lit "result.html") (force_questions tt)
            (extract_keywords (force_questions tt))
     = Render (lit "result.html") questions (extract_keywords questions) /\
     5 <= length questions /\ NoDup questions).
Proof.
  apply (@analyze_answer storage_one_good post_timeout [lit "good.pdf"]).
  vm_compute. reflexivity.
Defined.

Lemma collect_candidates_error (fs : storage) (selected candidates : list str)
  (e : exn) :
  collect_candidates fs selected candidates = raise e ->
  exists f, In f selected /\
            fs (path_join UPLOAD_FOLDER f) = None /\
            e = DocumentReadError (path_join UPLOAD_FOLDER f).
Proof.
  revert candidates. induction selected as [|g selected IH]; intros candidates H.
  - discriminate H.
  - cbn [collect_candidates] in H. unfold extract_text_from_pdf at 1 in H.
    destruct (fs (path_join UPLOAD_FOLDER g)) as [pages|] eqn:E.
    + cbn [bind ret] in H. apply IH in H. destruct H as (f & Hf & H).
      exists f. split; [now right | exact H].
    + cbn [bind raise] in H. injection H as <-.
      exists g. split; [now left | now split].
Qed.

(** X19: the only way [analyze] fails is the read error of a selected
    document that cannot be opened: whatever the rewrite service does
    never makes the request fail. *)
Theorem analyze_only_read_errors :
  forall (fs : storage) (post : str -> reply) (selected : list str) (e : exn),
    analyze fs post selected = raise e ->
    exists f, In f selected /\
              fs (path_join UPLOAD_FOLDER f) = None /\
              e = DocumentReadError (path_join UPLOAD_FOLDER f).
Proof.
  intros fs post selected e H. unfold analyze in H.
  destruct selected as [|f rest]; [discriminate H|].
  destruct (collect_candidates fs (f :: rest) []) as [e'|cs] eqn:E;
    [|discriminate H].
  cbn [bind] in H. injection H as <-.
  exact (@collect_candidates_error fs (f :: rest) [] e' E).
Qed.

Lemma analyze_only_read_errors_witness :
  exists f, In f [lit "bad.pdf"] /\
            storage_one_good (path_join UPLOAD_FOLDER f) = None /\
            DocumentReadError (lit "uploads/bad.pdf")
            = DocumentReadError (path_join UPLOAD_FOLDER f).
Proof.
  apply (@analyze_only_read_errors storage_one_good post_timeout [lit "bad.pdf"]).
  vm_compute. reflexivity.
Defined.

(** ** The upload folder *)

Lemma str_ltb_asym (a b : str) : str_ltb a b = true -> str_ltb b a = false.
Proof.
  revert b. induction a as [|x a IH]; intros [|y b]; simpl; try congruence.
  destruct (N.ltb_spec x y), (N.ltb_spec y x), (N.eqb_spec x y), (N.eqb_spec y x);
    try lia; try congruence; auto.
Qed.

(** If [x] is not above [y] and [y] is not above [z], then [x] is not
    above [z]. *)
Lemma str_ltb_chain (z y x : str) :
  str_ltb z y = false -> str_ltb y x = false -> str_ltb z x = false.
Proof.
  revert y x. induction z as [|c z IH]; intros [|b y] [|a x]; simpl;
    try congruence.
  destruct (N.ltb_spec c b), (N.ltb_spec b a), (N.ltb_spec c a),
    (N.eqb_spec c b), (N.eqb_spec b a), (N.eqb_spec c a);
    try lia; try congruence; eauto.
Qed.

Lemma insert_sorted_In (x y : str) (l : list str) :
  In y (insert_sorted x l) <-> y = x \/ In y l.
Proof.
  induction l as [|z l IH]; simpl.
  - intuition.
  - destruct (str_ltb z x); simpl; [rewrite IH|]; intuition.
Qed.

Lemma sorted_In (y : str) (l : list str) : In y (sorted l) <-> In y l.
Proof.
  induction l as [|x l IH]; simpl; [tauto|].
  rewrite insert_sorted_In, IH. intuition.
Qed.

Lemma insert_sorted_ascending (x : str) (l : list str) :
  ascending l -> ascending (insert_sorted x l).
Proof.
  induction l as [|y r IH]; intros H; simpl.
  - split; constructor.
  - destruct H as [Hy Hr]. destruct (str_ltb y x) eqn:E.
    + simpl. split; [|now apply IH].
      apply Forall_forall. intros z Hz. apply insert_sorted_In in Hz.
      destruct Hz as [-> | Hz]; [now apply str_ltb_asym|].
      rewrite Forall_forall in Hy. now apply Hy.
    + simpl. repeat split; try assumption.
      constructor; [assumption|].
      eapply Forall_impl; [|exact Hy]. simpl. intros z Hz.
      now apply (str_ltb_chain z y x).
Qed.

Lemma sorted_ascending (l : list str) : ascending (sorted l).
Proof.
  induction l as [|x l IH]; simpl; [exact I | now apply insert_sorted_ascending].
Qed.

Lemma get_uploaded_files_In (d : folder) (name : str) :
  In name (get_uploaded_files d) <->
  In name (listdir d) /\ endswith PDF_SUFFIX name = true.
Proof. unfold get_uploaded_files. now rewrite sorted_In, filter_In. Qed.

Lemma sorted_Permutation (l : list str) : Permutation (sorted l) l.
Proof.
  assert (I : forall x l, Permutation (insert_sorted x l) (x :: l)).
  { intros x l0. induction l0 as [|y r IH]; simpl; [reflexivity|].
    destruct (str_ltb y x); [|reflexivity].
    rewrite IH. apply perm_swap. }
  induction l as [|x l IH]; simpl; [reflexivity|].
  rewrite I. now constructor.
Qed.

(** X20: the listing of the folder holds exactly the names that end with
    [.pdf] (in lower case: [A.PDF] is not listed), each as often as the
    folder has it, in ascending order. *)
Theorem get_uploaded_files_listing :
  forall (d : folder),
    ascending (get_uploaded_files d) /\
    Permutation (get_uploaded_files d)
                (filter (endswith PDF_SUFFIX) (listdir d)) /\
    forall name,
      In name (get_uploaded_files d) <->
      In name (listdir d) /\ endswith PDF_SUFFIX name = true.
Proof.
  intros d. split; [apply sorted_ascending|]. split.
  - apply sorted_Permutation.
  - apply get_uploaded_files_In.
Qed.

Example get_uploaded_files_example :
  get_uploaded_files
    [(lit "b.pdf", []); (lit "notes.txt", []); (lit "A.PDF", []);
     (lit "a.pdf", []); (lit "B.pdf", [])]
  = [lit "B.pdf"; lit "a.pdf"; lit "b.pdf"].
Proof. vm_compute. reflexivity. Qed.

(** ** Clearing the folder *)

Lemma strip_prefix_app (p s : str) : strip_prefix p (p ++ s) = Some s.
Proof.
  induction p as [|x p IH]; simpl; [now destruct s|].
  unfold char_eqb. now rewrite N.eqb_refl.
Qed.

Lemma path_join_name (f : str) :
  contains_char 47%N f = false ->
  path_join UPLOAD_FOLDER f = (UPLOAD_FOLDER ++ [47%N]) ++ f.
Proof.
  intros H. unfold path_join.
  assert (E : startswith [47%N] f = false).
  { destruct f as [|c t]; [reflexivity|]. simpl in *.
    apply orb_false_iff in H. destruct H as [H _]. now rewrite H. }
  rewrite E.
  change ((length UPLOAD_FOLDER =? 0) || endswith [47%N] UPLOAD_FOLDER) with false.
  cbv iota. now rewrite <- app_assoc.
Qed.

Lemma os_remove_name (d : folder) (f : str) :
  contains_char 47%N f = false ->
  In f (listdir d) ->
  os_remove d (path_join UPLOAD_FOLDER f)
  = inr (filter (fun e => negb (str_eqb (fst e) f)) d).
Proof.
  intros H Hin. unfold os_remove.
  rewrite (path_join_name f H), strip_prefix_app.
  apply mem_In in Hin. now rewrite Hin.
Qed.

Lemma filter_all {X : Type} (l : list X) : filter (fun _ => true) l = l.
Proof. induction l; simpl; congruence. Qed.

Lemma filter_compose {X : Type} (f g : X -> bool) (l : list X) :
  filter g (filter f l) = filter (fun x => f x && g x) l.
Proof.
  induction l as [|x l IH]; [reflexivity|].
  simpl. destruct (f x); simpl; [destruct (g x)|]; now rewrite IH.
Qed.

Lemma remove_all_eq (names : list str) :
  forall d,
    NoDup names ->
    (forall n, In n names -> In n (listdir d) /\ contains_char 47%N n = false) ->
    remove_all d names = inr (filter (fun e => negb (mem (fst e) names)) d).
Proof.
  induction names as [|n names IH]; intros d Hnd H.
  - simpl. now rewrite filter_all.
  - cbn [remove_all]. destruct (H n (or_introl eq_refl)) as [Hin Hsep].
    rewrite (os_remove_name d n Hsep Hin).
    inversion Hnd as [|? ? Hn Hnd']; subst.
    rewrite IH; [|assumption|].
    + rewrite filter_compose. f_equal. apply filter_ext. intros e.
      cbn [mem existsb]. fold (mem (fst e) names).
      now rewrite negb_orb.
    + intros m Hm. destruct (H m (or_intror Hm)) as [Hmin Hmsep].
      split; [|assumption]. unfold listdir in *.
      apply in_map_iff in Hmin. destruct Hmin as [e [<- He]].
      apply in_map_iff. exists e. split; [reflexivity|].
      apply filter_In. split; [assumption|].
      apply negb_true_iff, not_true_iff. rewrite str_eqb_eq.
      intros E. apply Hn. rewrite <- E. exact Hm.
Qed.

Lemma no_pdf_left (d : folder) :
  get_uploaded_files (filter (fun e => negb (endswith PDF_SUFFIX (fst e))) d) = [].
Proof.
  unfold get_uploaded_files, listdir.
  induction d as [|[name bytes] d IH]; [reflexivity|].
  cbn [filter fst]. destruct (endswith PDF_SUFFIX name) eqn:E; cbn [negb].
  - exact IH.
  - cbn [map filter fst]. rewrite E. exact IH.
Qed.

(** X21: on a folder with distinct names, [clear] does not fail: it
    removes every file whose name ends with [.pdf], leaves every other
    file as it is and in place, and redirects to the upload view; the
    listing is empty afterwards. *)
Theorem clear_removes_pdfs :
  forall (d : folder),
    folder_ok d ->
    clear d = inr (filter (fun e => negb (endswith PDF_SUFFIX (fst e))) d,
                   RedirectTo (lit "upload")) /\
    get_uploaded_files
      (filter (fun e => negb (endswith PDF_SUFFIX (fst e))) d) = [].
Proof.
  intros d [Hnd Hsep]. split; [|apply no_pdf_left].
  unfold clear. rewrite remove_all_eq.
  - f_equal. f_equal. apply filter_ext_in. intros e He. f_equal.
    apply bool_eq_iff. rewrite mem_In, get_uploaded_files_In. split; [tauto|].
    intros H. split; [|assumption]. unfold listdir. apply in_map_iff. now exists e.
  - eapply Permutation_NoDup; [symmetry; apply sorted_Permutation|].
    now apply NoDup_filter.
  - intros n Hn. apply get_uploaded_files_In in Hn. destruct Hn as [Hn _].
    split; [assumption|]. rewrite Forall_forall in Hsep. now apply Hsep.
Qed.

Lemma clear_removes_pdfs_witness :
  clear folder_two
  = inr (filter (fun e => negb (endswith PDF_SUFFIX (fst e))) folder_two,
         RedirectTo (lit "upload")) /\
  get_uploaded_files
    (filter (fun e => negb (endswith PDF_SUFFIX (fst e))) folder_two) = [].
Proof.
  apply (@clear_removes_pdfs folder_two). split.
  - repeat constructor; simpl; intuition discriminate.
  - repeat constructor.
Defined.

(** ** Uploading *)

Lemma endswith_pdf_nonempty (name : str) :
  endswith PDF_SUFFIX name = true -> (length name =? 0) = false.
Proof. destruct name; [discriminate | reflexivity]. Qed.

Section Upload.

Variable secure_filename : str -> str.
Variable save : folder -> str -> content -> os_error + folder.

Lemma save_all_pdf_only (files : list (str * content)) :
  forall d,
    save_all secure_filename save d files
    = save_all secure_filename save d
        (filter (fun f => endswith PDF_SUFFIX (fst f)) files).
Proof.
  induction files as [|[filename bytes] files IH]; intros d; [reflexivity|].
  cbn [save_all filter fst]. destruct (endswith PDF_SUFFIX filename) eqn:E.
  - cbn [save_all]. rewrite E, (endswith_pdf_nonempty filename E). cbn [negb andb].
    destruct (save d (path_join UPLOAD_FOLDER (secure_filename filename)) bytes);
      [reflexivity | apply IH].
  - rewrite andb_false_r. apply IH.
Qed.

Lemma save_all_no_pdf (files : list (str * content)) (d : folder) :
  save_all secure_filename save d
    (filter (fun f => negb (endswith PDF_SUFFIX (fst f))) files) = inr d.
Proof.
  induction files as [|[filename bytes] files IH]; [reflexivity|].
  cbn [filter fst]. destruct (endswith PDF_SUFFIX filename) eqn:E; cbn [negb].
  - exact IH.
  - cbn [save_all]. rewrite E, andb_false_r. exact IH.
Qed.

End Upload.

(** X22: whatever [secure_filename] and [save] do, an upload stores only
    the files whose name ends with [.pdf] (in lower case): the others
    are skipped, so the request is the same without them, and a request
    made of such files alone leaves the folder as it is and redirects to
    the upload view. *)
Theorem upload_skips_other_files :
  forall (secure_filename : str -> str)
         (save : folder -> str -> content -> os_error + folder)
         (files : list (str * content)) (d : folder),
    upload secure_filename save POST files d
    = upload secure_filename save POST
        (filter (fun f => endswith PDF_SUFFIX (fst f)) files) d /\
    upload secure_filename save POST
      (filter (fun f => negb (endswith PDF_SUFFIX (fst f))) files) d
    = inr (d, RedirectTo (lit "upload")).
Proof.
  intros secure_filename save files d. unfold upload. split.
  - now rewrite save_all_pdf_only.
  - now rewrite save_all_no_pdf.
Qed.

Example upload_example :
  upload (fun name => name) save_by_name POST
         [(lit "b.pdf", [1%N]); (lit "b.PDF", [2%N]); (lit "c.txt", [3%N])]
         folder_two
  = inr (folder_two ++ [(lit "b.pdf", [1%N])], RedirectTo (lit "upload")).
Proof. vm_compute. reflexivity. Qed.

(** ** The size of the keyword list *)

(** X23: the summarizer returns ten entries when the questions hold ten
    or more distinct keywords, and one entry for each distinct keyword
    otherwise: below ten nothing is left out. *)
Theorem extract_keywords_size :
  forall (questions : list str),
    length (extract_keywords questions)
    = Nat.min 10 (length (dict_fromkeys (keyword_words questions))).
Proof.
  intros questions. unfold extract_keywords, most_common.
  fold (keyword_words questions).
  rewrite length_firstn, (Permutation_length (sorted_desc_Permutation _)).
  now rewrite <- Counter_keys, length_map.
Qed.
